(** * Head-movement classifier and capture-session lifecycle

    A shallow embedding of [backend/routes/main.py] (class [FaceDetector])
    and [backend/routes/detection.py] (the module-level [detector] and
    [camera], the frame generator and the control endpoints), with the
    properties of the movement table and of the session lifecycle proved
    about it.

    Python objects live in a store and are named by their address, so that
    the aliases the code creates (the generator's [cap] and the module's
    [camera], the frame passed to [detect_movement] and the frame it
    returns) are aliases in the model too.  Python floats are binary64
    values of [SpecFloat]; Python integers are [Z]. *)

From Stdlib Require Import ZArith Lia Bool String List.
From Stdlib Require Import Floats.SpecFloat.
From stdpp Require Import base option list.

Open Scope string_scope.
Open Scope list_scope.
Open Scope Z_scope.

(** ** Python values: exceptions, floats, integers *)

Module Py.

(** The exceptions the modelled code can meet. [str] is what
    [str(e)] gives the handlers of [detection.py]. *)
Inductive exn : Type :=
| ValueError (msg : string)
| OverflowError (msg : string)
| IndexError (msg : string)
| RuntimeError (msg : string).

Definition str (e : exn) : string :=
  match e with
  | ValueError m | OverflowError m | IndexError m | RuntimeError m => m
  end.

Inductive result (A : Type) : Type :=
| Ok (a : A)
| Raise (e : exn).
Arguments Ok {A} a.
Arguments Raise {A} e.

(** binary64 *)
Definition prec : Z := 53.
Definition emax : Z := 1024.

Definition fmul : spec_float -> spec_float -> spec_float := SFmul prec emax.

(** [float(n)] for an integer [n]: the nearest double, or OverflowError
    when [n] is beyond the range of doubles. *)
Definition float_of_int (n : Z) : result spec_float :=
  match binary_normalize prec emax n 0 false with
  | S754_infinity _ => Raise (OverflowError "int too large to convert to float")
  | f => Ok f
  end.

(** [n * f] with [n] an int and [f] a float. *)
Definition int_mul_float (n : Z) (f : spec_float) : result spec_float :=
  match float_of_int n with
  | Ok g => Ok (fmul g f)
  | Raise e => Raise e
  end.

(** [f * n] with [f] a float and [n] an int. *)
Definition float_mul_int (f : spec_float) (n : Z) : result spec_float :=
  match float_of_int n with
  | Ok g => Ok (fmul f g)
  | Raise e => Raise e
  end.

(** [int(f)]: truncation toward zero. *)
Definition int_of_float (f : spec_float) : result Z :=
  match f with
  | S754_nan => Raise (ValueError "cannot convert float NaN to integer")
  | S754_infinity _ => Raise (OverflowError "cannot convert float infinity to integer")
  | S754_zero _ => Ok 0
  | S754_finite s m e =>
      Ok (cond_Zopp s (match e with
                       | Zneg p => Z.pos m / 2 ^ Z.pos p
                       | _ => Z.pos m * 2 ^ e
                       end))
  end.

(** Python compares an int with a float exactly (no rounding of the
    int); a NaN compares false with everything. *)
Definition int_compare_float (n : Z) (f : spec_float) : option comparison :=
  match f with
  | S754_nan => None
  | S754_infinity s => Some (if s then Gt else Lt)
  | S754_zero _ => Some (n ?= 0)
  | S754_finite s m e =>
      Some (match e with
            | Zneg p => (n * 2 ^ Z.pos p ?= cond_Zopp s (Z.pos m))
            | _ => (n ?= cond_Zopp s (Z.pos m) * 2 ^ e)
            end)
  end.

Definition int_gt_float (n : Z) (f : spec_float) : bool :=
  match int_compare_float n f with Some Gt => true | _ => false end.

Definition int_lt_float (n : Z) (f : spec_float) : bool :=
  match int_compare_float n f with Some Lt => true | _ => false end.

(** The literal [0.05]: 0x1.999999999999ap-5. *)
Definition float_0_05 : spec_float :=
  S754_finite false 7205759403792794 (-57).

End Py.

Export Py.

(** ** The object store

    Frames (numpy arrays), [FaceDetector] objects and [cv2.VideoCapture]
    objects are kept in three lists and named by their index; a new
    object goes to the end, and no object is ever removed.  The two
    module-level variables of [detection.py] are part of the store. *)

Definition color : Type := Z * Z * Z.
Definition point : Type := Z * Z.

Record Landmark : Type := mkLandmark { x : spec_float; y : spec_float; z : spec_float }.

(** A [NormalizedLandmarkList]: field [landmark] is indexed by the
    anatomical scheme (1 is the nose tip). *)
Record FaceLandmarks : Type := mkFaceLandmarks { landmark : list Landmark }.

(** [FONT_HERSHEY_SIMPLEX] is the only font used; the font scale is the
    integer 1 or the float 0.5, kept here in halves. *)
Inductive DrawOp : Type :=
| draw_landmarks (landmark_list : FaceLandmarks) (c : color) (thickness circle_radius : Z)
| circle (center : point) (radius : Z) (c : color) (thickness : Z)
| line (pt1 pt2 : point) (c : color) (thickness : Z)
| putText (text : string) (org : point) (fontScale_halves : Z) (c : color) (thickness : Z).

(** A 3-channel image as the camera delivers it: [shape] is
    [(height, width, 3)], [data] the pixels row by row, and [overlay] the
    drawing calls made on this buffer so far, oldest first. *)
Record Frame : Type := mkFrame {
  height : Z;
  width : Z;
  data : list (Z * Z * Z);
  overlay : list DrawOp
}.

Record FaceDetector : Type := mkFaceDetector {
  reference_nose_tip : option point;
  calibrated : bool;
  (** whether [face_mesh.close()] has run *)
  face_mesh_closed : bool
}.

Record VideoCapture : Type := mkVideoCapture { isOpened : bool }.

Record Store : Type := mkStore {
  frames : list Frame;
  detectors : list FaceDetector;
  captures : list VideoCapture;
  (** [detector] and [camera] of [detection.py]: [None] or a reference *)
  detector : option nat;
  camera : option nat
}.

Definition set_frames (fs : list Frame) (st : Store) : Store :=
  mkStore fs (detectors st) (captures st) (detector st) (camera st).
Definition set_detectors (ds : list FaceDetector) (st : Store) : Store :=
  mkStore (frames st) ds (captures st) (detector st) (camera st).
Definition set_captures (cs : list VideoCapture) (st : Store) : Store :=
  mkStore (frames st) (detectors st) cs (detector st) (camera st).
Definition set_detector (d : option nat) (st : Store) : Store :=
  mkStore (frames st) (detectors st) (captures st) d (camera st).
Definition set_camera (c : option nat) (st : Store) : Store :=
  mkStore (frames st) (detectors st) (captures st) (detector st) c.

(** ** Computations: state and exceptions

    A Python call may change the store and may raise; what it changed
    before raising stays changed. *)

Definition M (A : Type) : Type := Store -> result A * Store.

Definition ret {A} (a : A) : M A := fun st => (Ok a, st).
Definition raise {A} (e : exn) : M A := fun st => (Raise e, st).
Definition bind {A B} (c : M A) (k : A -> M B) : M B :=
  fun st => match c st with
            | (Ok a, st') => k a st'
            | (Raise e, st') => (Raise e, st')
            end.
Definition lift {A} (r : result A) : M A := fun st => (r, st).
Definition gets {A} (f : Store -> A) : M A := fun st => (Ok (f st), st).
Definition modify (f : Store -> Store) : M unit := fun st => (Ok tt, f st).

(** [try: c except Exception as e: h e] *)
Definition try_except {A} (c : M A) (h : exn -> M A) : M A :=
  fun st => match c st with
            | (Ok a, st') => (Ok a, st')
            | (Raise e, st') => h e st'
            end.

Declare Scope py_scope.
Delimit Scope py_scope with py.
Notation "x <- c ;; k" := (bind c (fun x => k))
  (at level 100, c at next level, right associativity) : py_scope.
Notation "c ;;; k" := (bind c (fun _ => k))
  (at level 100, right associativity) : py_scope.
Open Scope py_scope.

(** A reference that names no object cannot arise in Python; the model
    answers it with an error of its own. *)
Definition dangling {A} : M A := raise (RuntimeError "dangling reference").

Definition deref {A} (sel : Store -> list A) (r : nat) : M A :=
  fun st => match sel st !! r with
            | Some a => (Ok a, st)
            | None => dangling st
            end.

Definition new_frame (f : Frame) : M nat :=
  fun st => (Ok (length (frames st)), set_frames (frames st ++ [f]) st).
Definition new_detector (d : FaceDetector) : M nat :=
  fun st => (Ok (length (detectors st)), set_detectors (detectors st ++ [d]) st).
Definition new_capture (c : VideoCapture) : M nat :=
  fun st => (Ok (length (captures st)), set_captures (captures st ++ [c]) st).

Definition update_detector (r : nat) (f : FaceDetector -> FaceDetector) : M unit :=
  d <- deref detectors r ;;
  modify (fun st => set_detectors (<[r := f d]> (detectors st)) st).

Definition update_capture (r : nat) (f : VideoCapture -> VideoCapture) : M unit :=
  c <- deref captures r ;;
  modify (fun st => set_captures (<[r := f c]> (captures st)) st).

(** A drawing call of [cv2] or [mp_drawing] on the buffer [r]. *)
Definition paint (op : DrawOp) (f : Frame) : Frame :=
  mkFrame (height f) (width f) (data f) (overlay f ++ [op]).

Definition draw (r : nat) (op : DrawOp) : M unit :=
  f <- deref frames r ;;
  modify (fun st => set_frames (<[r := paint op f]> (frames st)) st).

(** ** [main.py]: class [FaceDetector] *)

Module main.

Definition NO_FACE : string := "NO FACE".
Definition CENTER_CALIBRATED : string := "CENTER (Calibrated)".
Definition CENTER : string := "CENTER".
Definition RIGHT : string := "RIGHT".
Definition LEFT : string := "LEFT".
Definition DOWN : string := "DOWN".
Definition UP : string := "UP".

(** [cv2.cvtColor(frame, cv2.COLOR_BGR2RGB)]: a new array with the
    channels of every pixel swapped. *)
Definition cvtColor_BGR2RGB (f : Frame) : Frame :=
  mkFrame (height f) (width f) (map (fun '(b, g, r) => (r, g, b)) (data f)) (overlay f).

(** [int(coordinate * size)] *)
Definition to_pixel (coordinate : spec_float) (size : Z) : result Z :=
  match float_mul_int coordinate size with
  | Ok p => int_of_float p
  | Raise e => Raise e
  end.

(** Lines 72 to 94 of [main.py]: the displacement from the reference and
    the nested comparisons.  [direction] is the value the variable holds
    on entry. *)
Definition movement (w h : Z) (reference nose : point) (direction : string)
  : result string :=
  let dx := fst nose - fst reference in
  let dy := snd nose - snd reference in
  match int_mul_float w float_0_05 with
  | Raise e => Raise e
  | Ok horizontal_threshold =>
  match int_mul_float h float_0_05 with
  | Raise e => Raise e
  | Ok vertical_threshold =>
      Ok (if int_gt_float (Z.abs dx) horizontal_threshold
             || int_gt_float (Z.abs dy) vertical_threshold
          then
            if Z.abs dx >? Z.abs dy then
              if int_gt_float dx horizontal_threshold then RIGHT
              else if int_lt_float dx (SFopp horizontal_threshold) then LEFT
              else direction
            else
              if int_gt_float dy vertical_threshold then DOWN
              else if int_lt_float dy (SFopp vertical_threshold) then UP
              else direction
          else CENTER)
  end end.

Section FaceDetector.

(** The landmark model behind [face_mesh.process(...)]: from an RGB image
    to [results.multi_face_landmarks], which is [None] or a list of
    faces. *)
Variable multi_face_landmarks : Frame -> option (list FaceLandmarks).

(** [FaceDetector()]: [mesh] is the exception raised by the creation of
    the MediaPipe face mesh, if it raises one. *)
Definition FaceDetector_init (mesh : option exn) : M nat :=
  match mesh with
  | Some e => raise e
  | None => new_detector (mkFaceDetector None false false)
  end.

(** [self.face_mesh.process(rgb_frame)].  A face mesh that has been
    closed has no graph left and fails; the text of the exception is the
    model's. *)
Definition face_mesh_process (self rgb_frame : nat) : M (option (list FaceLandmarks)) :=
  d <- deref detectors self ;;
  if face_mesh_closed d
  then raise (ValueError "face mesh is closed")
  else img <- deref frames rgb_frame ;; ret (multi_face_landmarks img).

Definition detect_movement (self frame : nat) : M (string * nat) :=
  img <- deref frames frame ;;
  rgb_frame <- new_frame (cvtColor_BGR2RGB img) ;;
  results <- face_mesh_process self rgb_frame ;;
  let direction := NO_FACE in
  direction <-
    match results with
    | Some (face_landmarks :: _) =>
        let h := height img in
        let w := width img in
        nose_tip <- match landmark face_landmarks !! 1%nat with
                    | Some l => ret l
                    | None => raise (IndexError "list index out of range")
                    end ;;
        nose_x <- lift (to_pixel (x nose_tip) w) ;;
        nose_y <- lift (to_pixel (y nose_tip) h) ;;
        draw frame (draw_landmarks face_landmarks (0, 255, 0) 1 1) ;;;
        d <- deref detectors self ;;
        direction <-
          match calibrated d, reference_nose_tip d with
          | true, Some reference =>
              direction <- lift (movement w h reference (nose_x, nose_y) direction) ;;
              draw frame (circle reference 5 (255, 0, 0) (-1)) ;;;
              draw frame (circle (nose_x, nose_y) 5 (0, 0, 255) (-1)) ;;;
              draw frame (line reference (nose_x, nose_y) (255, 255, 0) 2) ;;;
              ret direction
          | _, _ =>
              update_detector self
                (fun d => mkFaceDetector (Some (nose_x, nose_y)) true (face_mesh_closed d)) ;;;
              ret CENTER_CALIBRATED
          end ;;
        draw frame (putText ("Direction: " ++ direction)%string (10, 30) 2 (0, 255, 0) 2) ;;;
        draw frame (putText "Press 'C' to recalibrate" (10, h - 20) 1 (255, 255, 255) 1) ;;;
        ret direction
    | _ =>
        draw frame (putText "No face detected" (10, 30) 2 (0, 0, 255) 2) ;;;
        ret direction
    end ;;
  ret (direction, frame).

Definition recalibrate (self : nat) : M unit :=
  update_detector self (fun d => mkFaceDetector None false (face_mesh_closed d)).

(** [self.face_mesh.close()]: MediaPipe raises when the mesh is closed
    already. *)
Definition release (self : nat) : M unit :=
  d <- deref detectors self ;;
  if face_mesh_closed d
  then raise (ValueError "Closing SolutionBase._graph which is already None")
  else update_detector self
         (fun d => mkFaceDetector (reference_nose_tip d) (calibrated d) true).

End FaceDetector.

End main.

(** ** [detection.py]: the module-level session and its endpoints *)

Module detection.

Inductive JsonValue : Type :=
| JString (s : string)
| JBool (b : bool).

(** [jsonify({...}), code] *)
Record Response : Type := mkResponse {
  body : list (string * JsonValue);
  status_code : Z
}.

Definition status_message (status message : string) (code : Z) : Response :=
  mkResponse [("status", JString status); ("message", JString message)] code.

(** What the outside world answers during one call: [mesh] is the
    exception raised by [FaceDetector()], if any; [device] tells whether
    [cv2.VideoCapture(0)] manages to open the camera. *)
Record Env : Type := mkEnv {
  mesh : option exn;
  device : bool
}.

(** [cap.read()] on a capture object; [grab] is the image the device
    delivers, if it delivers one.  A capture that is not opened reads
    nothing. *)
Definition read (cap : nat) (grab : option Frame) : M (bool * option nat) :=
  c <- deref captures cap ;;
  if isOpened c then
    match grab with
    | Some img => frame <- new_frame img ;; ret (true, Some frame)
    | None => ret (false, None)
    end
  else ret (false, None).

(** [cap.release()] *)
Definition VideoCapture_release (cap : nat) : M unit :=
  update_capture cap (fun _ => mkVideoCapture false).

Definition CRLF : string :=
  String (Ascii.ascii_of_nat 13) (String (Ascii.ascii_of_nat 10) EmptyString).

(** The state of one generator object made by [generate_frames()]:
    not yet entered, suspended at its [yield] with its two locals, or
    finished. *)
Inductive Generator : Type :=
| gen_created
| gen_suspended (face_detector cap : nat)
| gen_finished.

(** Calling [generate_frames()] runs nothing yet. *)
Definition generate_frames : Generator := gen_created.

Section Session.

Variable multi_face_landmarks : Frame -> option (list FaceLandmarks).

(** [cv2.imencode('.jpg', frame)[1].tobytes()] *)
Variable imencode_jpg : Frame -> string.

Definition get_detector (env : Env) : M nat :=
  d <- gets detector ;;
  match d with
  | None =>
      r <- main.FaceDetector_init (mesh env) ;;
      modify (set_detector (Some r)) ;;;
      ret r
  | Some r => ret r
  end.

Definition get_camera (env : Env) : M nat :=
  let open_camera : M nat :=
    r <- new_capture (mkVideoCapture (device env)) ;;
    modify (set_camera (Some r)) ;;;
    ret r in
  c <- gets camera ;;
  match c with
  | None => open_camera
  | Some r =>
      cap <- deref captures r ;;
      if negb (isOpened cap) then open_camera else ret r
  end.

(** One pass through the body of [while True:], from [cap.read()] to the
    [yield] or the [break]. *)
Definition loop_body (face_detector cap : nat) (grab : option Frame)
  : M (option string * Generator) :=
  r <- read cap grab ;;
  match fst r, snd r with
  | true, Some frame =>
      r <- main.detect_movement multi_face_landmarks face_detector frame ;;
      let annotated_frame := snd r in
      img <- deref frames annotated_frame ;;
      let frame_bytes := imencode_jpg img in
      ret (Some ("--frame" ++ CRLF ++ "Content-Type: image/jpeg" ++ CRLF ++ CRLF
                 ++ frame_bytes ++ CRLF)%string,
           gen_suspended face_detector cap)
  | _, _ => ret (None, gen_finished)
  end.

(** [next(g)] on a generator of [generate_frames]: [Ok (Some part)] is a
    yielded part, [Ok None] is [StopIteration], [Raise e] an exception
    coming out of the generator, which is finished from then on. *)
Definition next (env : Env) (grab : option Frame) (g : Generator)
  : Store -> result (option string) * Generator * Store :=
  fun st =>
    let run :=
      match g with
      | gen_created =>
          face_detector <- get_detector env ;;
          cap <- get_camera env ;;
          loop_body face_detector cap grab
      | gen_suspended face_detector cap => loop_body face_detector cap grab
      | gen_finished => ret (None, gen_finished)
      end in
    match run st with
    | (Ok (part, g'), st') => (Ok part, g', st')
    | (Raise e, st') => (Raise e, gen_finished, st')
    end.

Definition on_exception : exn -> M Response :=
  fun e => ret (status_message "error" (str e) 500).

Definition start_detection (env : Env) : M Response :=
  try_except
    (face_detector <- get_detector env ;;
     cap <- get_camera env ;;
     c <- deref captures cap ;;
     if isOpened c
     then ret (status_message "success" "Detection started" 200)
     else ret (status_message "error" "Could not access camera" 500))
    on_exception.

Definition stop_detection : M Response :=
  try_except
    (c <- gets camera ;;
     match c with
     | Some r => VideoCapture_release r ;;; modify (set_camera None)
     | None => ret tt
     end ;;;
     d <- gets detector ;;
     match d with
     | Some r => main.release r ;;; modify (set_detector None)
     | None => ret tt
     end ;;;
     ret (status_message "success" "Detection stopped" 200))
    on_exception.

Definition recalibrate (env : Env) : M Response :=
  try_except
    (face_detector <- get_detector env ;;
     main.recalibrate face_detector ;;;
     ret (status_message "success" "Recalibrated successfully" 200))
    on_exception.

Definition detection_status : M Response :=
  c <- gets camera ;;
  is_active <- match c with
               | None => ret false
               | Some r => cap <- deref captures r ;; ret (isOpened cap)
               end ;;
  ret (mkResponse
         [("active", JBool is_active);
          ("message", JString (if is_active : bool then "Detection is active"
                               else "Detection is inactive"))]
         200).

End Session.

End detection.

(** * Vocabulary of the properties *)

Import detection.

Section Observations.

Variable multi_face_landmarks : Frame -> option (list FaceLandmarks).

(** The face the classifier works on: the first of the faces found in the
    RGB copy of the image. *)
Definition first_face (img : Frame) : option FaceLandmarks :=
  match multi_face_landmarks (main.cvtColor_BGR2RGB img) with
  | Some (face_landmarks :: _) => Some face_landmarks
  | _ => None
  end.

(** [detect_movement] returns [direction], together with a frame. *)
Definition returns (self frame : nat) (st : Store) (direction : string) (out : nat)
  : Prop :=
  exists st', main.detect_movement multi_face_landmarks self frame st
              = (Ok (direction, out), st').

(** [detect_movement] calibrates [self] at [nose]: it returns
    CENTER (Calibrated) and leaves the classifier calibrated with [nose]
    as its reference. *)
Definition calibrates (self frame : nat) (nose : point) (st : Store) : Prop :=
  exists st', main.detect_movement multi_face_landmarks self frame st
              = (Ok (main.CENTER_CALIBRATED, frame), st')
              /\ detectors st' !! self = Some (mkFaceDetector (Some nose) true false).

End Observations.

(** The call [self.detect_movement(frame)] is well formed in [st]: the
    two references name the classifier [d] and the image [img], and the
    face mesh of [d] has not been closed. *)
Definition call (st : Store) (self frame : nat) (d : FaceDetector) (img : Frame)
  : Prop :=
  detectors st !! self = Some d /\ face_mesh_closed d = false
  /\ frames st !! frame = Some img.

(** The rows and the columns of an OpenCV image are C [int]s. *)
Definition cv_size (img : Frame) : Prop :=
  0 <= width img < 2 ^ 31 /\ 0 <= height img < 2 ^ 31.

(** The nose pixel position [(nose_x, nose_y)] of a face in an image. *)
Definition nose_pixel (img : Frame) (face : FaceLandmarks) : result point :=
  match landmark face !! 1%nat with
  | None => Raise (IndexError "list index out of range")
  | Some nose_tip =>
      match main.to_pixel (x nose_tip) (width img) with
      | Raise e => Raise e
      | Ok nose_x =>
          match main.to_pixel (y nose_tip) (height img) with
          | Raise e => Raise e
          | Ok nose_y => Ok (nose_x, nose_y)
          end
      end
  end.

(** The overlays of a frame without a face, and the overlays common to
    every frame with one. *)
Definition no_face_text : DrawOp :=
  putText "No face detected" (10, 30) 2 (0, 0, 255) 2.
Definition mesh_overlay (face : FaceLandmarks) : DrawOp :=
  draw_landmarks face (0, 255, 0) 1 1.
Definition text_overlays (img : Frame) (direction : string) : list DrawOp :=
  [putText ("Direction: " ++ direction)%string (10, 30) 2 (0, 255, 0) 2;
   putText "Press 'C' to recalibrate" (10, height img - 20) 1 (255, 255, 255) 1].
Definition marker_overlays (reference nose : point) : list DrawOp :=
  [circle reference 5 (255, 0, 0) (-1);
   circle nose 5 (0, 0, 255) (-1);
   line reference nose (255, 255, 0) 2].

Definition painted (ops : list DrawOp) (f : Frame) : Frame :=
  mkFrame (height f) (width f) (data f) (overlay f ++ ops).

(** The store after a call of [detect_movement] that went through: the
    input buffer carries the new overlays, the RGB copy has been added,
    and the classifier [self] is [d']. *)
Definition after_call (st : Store) (self frame : nat) (img : Frame)
  (ops : list DrawOp) (d' : FaceDetector) : Store :=
  mkStore (<[frame := painted ops img]> (frames st) ++ [main.cvtColor_BGR2RGB img])
          (<[self := d']> (detectors st))
          (captures st) (detector st) (camera st).

Definition fresh_detector : FaceDetector := mkFaceDetector None false false.

(** The store when the module has just been imported. *)
Definition initial_store : Store := mkStore [] [] [] None None.

(** The capture object behind [camera] is open. *)
Definition active (st : Store) : bool :=
  match camera st with
  | None => false
  | Some r => match captures st !! r with
              | Some c => isOpened c
              | None => false
              end
  end.

(** Number of capture objects that hold the device open. *)
Definition open_handles (st : Store) : nat :=
  length (List.filter isOpened (captures st)).

(** What holds of every store the endpoints and the stream produce: the
    two module variables refer to objects of the store, the classifier
    behind [detector] has not been released, and a capture object that is
    open is the one behind [camera]. *)
Record consistent (st : Store) : Prop := mkConsistent {
  detector_live : forall r, detector st = Some r ->
    exists d, detectors st !! r = Some d /\ face_mesh_closed d = false;
  camera_allocated : forall r, camera st = Some r -> is_Some (captures st !! r);
  open_is_camera : forall i c, captures st !! i = Some c -> isOpened c = true ->
    camera st = Some i
}.

Definition with_new_capture (env : Env) (st : Store) : Store :=
  mkStore (frames st) (detectors st) (captures st ++ [mkVideoCapture (device env)])
          (detector st) (Some (length (captures st))).

(** The store after [stop_detection] went through. *)
Definition stopped (st : Store) : Store :=
  mkStore (frames st)
          (match detector st with
           | Some r => alter (fun d => mkFaceDetector (reference_nose_tip d) (calibrated d) true)
                             r (detectors st)
           | None => detectors st
           end)
          (match camera st with
           | Some r => <[r := mkVideoCapture false]> (captures st)
           | None => captures st
           end)
          None None.

Definition started : Response := status_message "success" "Detection started" 200.
Definition stopped_ok : Response := status_message "success" "Detection stopped" 200.
Definition recalibrated : Response :=
  status_message "success" "Recalibrated successfully" 200.

Definition with_new_detector (st : Store) : Store :=
  mkStore (frames st) (detectors st ++ [fresh_detector]) (captures st)
          (Some (length (detectors st))) (camera st).

(** A computation preserves a property of the store, whether it returns
    or raises. *)
Definition preserves {A} (P : Store -> Prop) (c : M A) : Prop :=
  forall st, P st -> P (snd (c st)).

Abbreviation keeps c := (preserves consistent c).

(** The frames of the store are the frames [fs], with overlays added on
    the buffer [frame], which held [img], followed by the one buffer
    [rgb]. *)
Definition drawn_on (fs : list Frame) (frame : nat) (img rgb : Frame) (st : Store)
  : Prop :=
  exists ops, frames st = <[frame := painted ops img]> fs ++ [rgb].

Section Reachable.

Variable multi_face_landmarks : Frame -> option (list FaceLandmarks).
Variable imencode_jpg : Frame -> string.

(** The stores the program goes through: any sequence of calls of the
    endpoints and of steps of frame generators. *)
Inductive reachable : Store -> Prop :=
| reach_initial : reachable initial_store
| reach_start env st :
    reachable st -> reachable (snd (start_detection env st))
| reach_stop st :
    reachable st -> reachable (snd (stop_detection st))
| reach_recalibrate env st :
    reachable st -> reachable (snd (detection.recalibrate env st))
| reach_status st :
    reachable st -> reachable (snd (detection_status st))
| reach_next env grab g st :
    reachable st ->
    reachable (snd (detection.next multi_face_landmarks imencode_jpg env grab g st)).

End Reachable.

(** ** Scenarios

    The scenario of the specification: a 640 by 480 image, a classifier
    calibrated at (320, 240), and a landmark model that places the nose
    tip where the scenario wants it. *)

Definition float_0 : spec_float := S754_zero false.

(** 39/64 and 131/256: times 640 and 480 they give 390 and 245.625. *)
Definition nose_right : Landmark :=
  mkLandmark (S754_finite false 5488762045857792 (-53))
             (S754_finite false 4609152743636992 (-53)) float_0.

(** 33/64 and 9/16: times 640 and 100 they give 330 and 56.25. *)
Definition nose_between : Landmark :=
  mkLandmark (S754_finite false 4644337115725824 (-53))
             (S754_finite false 5066549580791808 (-53)) float_0.

Definition face_with (nose_tip : Landmark) : FaceLandmarks :=
  mkFaceLandmarks [mkLandmark float_0 float_0 float_0; nose_tip].

Definition sees (nose_tip : Landmark) : Frame -> option (list FaceLandmarks) :=
  fun _ => Some [face_with nose_tip].

Definition sees_nothing : Frame -> option (list FaceLandmarks) :=
  fun _ => None.

(** An image of the given shape; its pixels are left out, the landmark
    models of the scenarios do not look at them. *)
Definition blank (h w : Z) : Frame := mkFrame h w [] [].

(** One image and one classifier, calibrated at [reference] or not yet
    calibrated, outside any session. *)
Definition bench (img : Frame) (reference : option point) : Store :=
  mkStore [img]
          [mkFaceDetector reference (match reference with Some _ => true | None => false end) false]
          [] None None.

(** A session in progress: camera open, classifier created. *)
Definition live_store : Store :=
  mkStore [] [fresh_detector] [mkVideoCapture true] (Some 0%nat) (Some 0%nat).

Definition no_jpeg : Frame -> string := fun _ => EmptyString.

Definition camera_present : Env := mkEnv None true.

(** * The rest of the two modules *)

(** ** [main.py]: the standalone loop [test_camera]

    The loop reads the camera, shows each annotated frame in a window and
    polls the keyboard.  What the device delivers and what [cv2.waitKey]
    returns come from a script, one pair per pass; what the function
    prints and shows is recorded as a list of events. *)

Inductive UiEvent : Type :=
| Print (text : string)
| ImShow (winname : string) (frame : nat)
| DestroyAllWindows.

(** How a run over a script stops: the function has returned, or the
    script has been used up while the loop was still going. *)
Inductive LoopEnd : Type :=
| returned
| still_running.

Import Ascii.

(** [ord(c)] *)
Definition ord (c : Ascii.ascii) : Z := Z.of_N (Ascii.N_of_ascii c).

Section TestCamera.

Variable multi_face_landmarks : Frame -> option (list FaceLandmarks).

(** [while cap.isOpened(): ...], lines 138 to 154. *)
Fixpoint camera_loop (detector cap : nat) (script : list (option Frame * Z))
  (ui : list UiEvent) (st : Store) : result LoopEnd * list UiEvent * Store :=
  match deref captures cap st with
  | (Raise e, st1) => (Raise e, ui, st1)
  | (Ok c, st1) =>
      if negb (isOpened c) then (Ok returned, ui, st1) else
      match script with
      | [] => (Ok still_running, ui, st1)
      | (grab, code) :: script' =>
          match read cap grab st1 with
          | (Raise e, st2) => (Raise e, ui, st2)
          | (Ok (true, Some frame), st2) =>
              match main.detect_movement multi_face_landmarks detector frame st2 with
              | (Raise e, st3) => (Raise e, ui, st3)
              | (Ok (direction, annotated_frame), st3) =>
                  let ui := ui ++ [ImShow "Facial Movement Detection" annotated_frame] in
                  let key := Z.land code 255 in
                  if key =? ord "q"%char then (Ok returned, ui, st3)
                  else if key =? ord "c"%char then
                    match main.recalibrate detector st3 with
                    | (Raise e, st4) => (Raise e, ui, st4)
                    | (Ok _, st4) =>
                        camera_loop detector cap script'
                                    (ui ++ [Print "Recalibrated!"]) st4
                    end
                  else camera_loop detector cap script' ui st3
              end
          | (Ok _, st2) => (Ok returned, ui, st2)
          end
      end
  end.

(** [test_camera()]: the classifier and the capture object are its own,
    not those of [detection.py]. *)
Definition test_camera (env : Env) (script : list (option Frame * Z)) (st : Store)
  : result LoopEnd * list UiEvent * Store :=
  match (detector <- main.FaceDetector_init (mesh env) ;;
         cap <- new_capture (mkVideoCapture (device env)) ;;
         ret (detector, cap)) st with
  | (Raise e, st1) => (Raise e, [], st1)
  | (Ok (detector, cap), st1) =>
      let ui := [Print "Press 'C' to recalibrate"; Print "Press 'Q' to quit"] in
      match camera_loop detector cap script ui st1 with
      | (Ok returned, ui, st2) =>
          match VideoCapture_release cap st2 with
          | (Raise e, st3) => (Raise e, ui, st3)
          | (Ok _, st3) =>
              let ui := ui ++ [DestroyAllWindows] in
              match main.release detector st3 with
              | (Raise e, st4) => (Raise e, ui, st4)
              | (Ok _, st4) => (Ok returned, ui, st4)
              end
          end
      | other => other
      end
  end.

End TestCamera.

(** ** [detection.py]: a client pulling the stream

    The server takes the parts of [generate_frames()] one after the other
    for as long as the client stays; [grabs] is what the device delivers
    at each read.  The result is the parts yielded, and the generator as
    it is left: finished, or suspended when the client went away first. *)

Section Consume.

Variable multi_face_landmarks : Frame -> option (list FaceLandmarks).
Variable imencode_jpg : Frame -> string.

Fixpoint consume (env : Env) (grabs : list (option Frame)) (g : Generator)
  (st : Store) : list string * result Generator * Store :=
  match grabs with
  | [] => ([], Ok g, st)
  | grab :: grabs' =>
      match detection.next multi_face_landmarks imencode_jpg env grab g st with
      | (Ok (Some part), g', st') =>
          match consume env grabs' g' st' with
          | (parts, r, st'') => (part :: parts, r, st'')
          end
      | (Ok None, g', st') => ([], Ok g', st')
      | (Raise e, _, st') => ([], Raise e, st')
      end
  end.

End Consume.

(** ** Vocabulary of the further properties *)

(** One part of the multipart stream around the bytes of an image. *)
Definition part_of (frame_bytes : string) : string :=
  ("--frame" ++ CRLF ++ "Content-Type: image/jpeg" ++ CRLF ++ CRLF
   ++ frame_bytes ++ CRLF)%string.

(** Left for right, and up for down. *)
Definition mirror_horizontal (direction : string) : string :=
  if String.eqb direction main.RIGHT then main.LEFT
  else if String.eqb direction main.LEFT then main.RIGHT
  else direction.

Definition mirror_vertical (direction : string) : string :=
  if String.eqb direction main.DOWN then main.UP
  else if String.eqb direction main.UP then main.DOWN
  else direction.

Definition map_result {A B} (f : A -> B) (r : result A) : result B :=
  match r with
  | Ok a => Ok (f a)
  | Raise e => Raise e
  end.

(** The body of the answer of [detection_status]. *)
Definition status_body (is_active : bool) : list (string * JsonValue) :=
  [("active", JBool is_active);
   ("message", JString (if is_active then "Detection is active"
                        else "Detection is inactive"))].

Definition camera_error : Response :=
  status_message "error" "Could not access camera" 500.

(** The answer of an endpoint whose body raised [e]. *)
Definition error_answer (e : exn) : Response :=
  status_message "error" (str e) 500.

(** The store once [get_detector] has gone through. *)
Definition ensure_detector (st : Store) : Store :=
  match detector st with
  | Some _ => st
  | None => with_new_detector st
  end.

(** A classifier after [release]. *)
Definition released (d : FaceDetector) : FaceDetector :=
  mkFaceDetector (reference_nose_tip d) (calibrated d) true.

Section Classifiable.

Variable multi_face_landmarks : Frame -> option (list FaceLandmarks).

(** The image shows no face, or it shows one whose nose pixel position
    can be computed: [detect_movement] returns on such an image. *)
Definition classifiable (img : Frame) : Prop :=
  first_face multi_face_landmarks img = None
  \/ (exists face nose, first_face multi_face_landmarks img = Some face
                         /\ nose_pixel img face = Ok nose).

End Classifiable.

(** The session is in [st] what it is in [st0]: same capture objects,
    same [camera], same [detector]. *)
Definition same_session (st0 st : Store) : Prop :=
  captures st = captures st0 /\ detector st = detector st0 /\ camera st = camera st0.

(** ** Further scenarios *)

(** An image with one pixel, and a landmark model that finds the face in
    the images that have pixels and none in those that have not. *)
Definition lit (h w : Z) : Frame := mkFrame h w [(0, 0, 0)] [].

Definition sees_lit (nose_tip : Landmark) : Frame -> option (list FaceLandmarks) :=
  fun img => match data img with
             | [] => None
             | _ => Some [face_with nose_tip]
             end.

(** A landmark whose coordinates are not numbers. *)
Definition nose_undefined : Landmark := mkLandmark S754_nan S754_nan float_0.

(** No camera, or no face mesh. *)
Definition camera_absent : Env := mkEnv None false.

Definition mesh_unavailable : Env :=
  mkEnv (Some (RuntimeError "face mesh unavailable")) true.

(** Three images in a row before one classifier: a face, no face, a
    face again. *)
Definition three_frames : Store :=
  mkStore [lit 480 640; blank 480 640; lit 480 640] [fresh_detector] [] None None.

(** A session in progress whose classifier is calibrated. *)
Definition live_calibrated : Store :=
  mkStore [] [mkFaceDetector (Some (100, 100)) true false] [mkVideoCapture true]
          (Some 0%nat) (Some 0%nat).

(** What the camera and the keyboard deliver to [test_camera]: a frame
    and no key, a frame and the key c, then a read that fails. *)
Definition short_script : list (option Frame * Z) :=
  [(Some (blank 480 640), 255); (Some (blank 480 640), 99); (None, 255)].

(** What [test_camera] prints before its loop. *)
Definition banner : list UiEvent :=
  [Print "Press 'C' to recalibrate"; Print "Press 'Q' to quit"].

(** What the loop of [test_camera] shows and prints. *)
Definition loop_event (e : UiEvent) : Prop :=
  match e with
  | ImShow winname _ => winname = "Facial Movement Detection"
  | Print text => text = "Recalibrated!"
  | DestroyAllWindows => False
  end.

(** The key of a pass of the loop, as the code compares it. *)
Definition key_is (c : Ascii.ascii) (pass : option Frame * Z) : Prop :=
  Z.land (snd pass) 255 = ord c.

(** * Properties *)

(** ** Double precision: the thresholds [w * 0.05] and [h * 0.05]

    [SpecFloat] defines rounding by shifting the mantissa; the lemmas
    below say what the shifts compute, up to the fact that the product of
    an integer below [2 ^ 31] and the double [0.05] has the same integer
    part as the twentieth of that integer. *)

(** The products as Python prints them: [3 * 0.05] is
    0.15000000000000002 (0x1.3333333333334p-3), [7 * 0.05] is
    0.35000000000000003 (0x1.6666666666667p-2), [640 * 0.05] is 32.0 and
    [480 * 0.05] is 24.0. *)
Example three_twentieths :
  int_mul_float 3 float_0_05 = Ok (S754_finite false 5404319552844596 (-55)).
Proof. reflexivity. Qed.

Example seven_twentieths :
  int_mul_float 7 float_0_05 = Ok (S754_finite false 6305039478318695 (-54)).
Proof. reflexivity. Qed.

Example threshold_640 :
  int_mul_float 640 float_0_05 = Ok (S754_finite false 4503599627370496 (-47)).
Proof. reflexivity. Qed.

Example threshold_480 :
  int_mul_float 480 float_0_05 = Ok (S754_finite false 6755399441055744 (-48)).
Proof. reflexivity. Qed.

Lemma digits2_pos_bounds p :
  2 ^ (Z.pos (digits2_pos p) - 1) <= Z.pos p < 2 ^ Z.pos (digits2_pos p).
Proof.
  induction p as [p IH|p IH|]; cbn [digits2_pos].
  - rewrite Pos2Z.inj_succ, (Pos2Z.inj_xI p).
    replace (Z.succ (Z.pos (digits2_pos p)) - 1) with (Z.succ (Z.pos (digits2_pos p) - 1)) by lia.
    rewrite !Z.pow_succ_r by lia.
    destruct IH. set (a := 2 ^ (Z.pos (digits2_pos p) - 1)) in *. set (b := 2 ^ Z.pos (digits2_pos p)) in *. clearbody a b. lia.
  - rewrite Pos2Z.inj_succ, (Pos2Z.inj_xO p).
    replace (Z.succ (Z.pos (digits2_pos p)) - 1) with (Z.succ (Z.pos (digits2_pos p) - 1)) by lia.
    rewrite !Z.pow_succ_r by lia.
    destruct IH. set (a := 2 ^ (Z.pos (digits2_pos p) - 1)) in *. set (b := 2 ^ Z.pos (digits2_pos p)) in *. clearbody a b. lia.
  - cbn. lia.
Qed.

Lemma digits2_pos_unique p d :
  2 ^ (d - 1) <= Z.pos p < 2 ^ d -> Z.pos (digits2_pos p) = d.
Proof.
  intros [Hlo Hhi]. pose proof (digits2_pos_bounds p) as [Dlo Dhi].
  set (D := Z.pos (digits2_pos p)) in *.
  assert (0 < d).
  { destruct (Z.lt_ge_cases 0 d) as [?|?]; [assumption|].
    assert (2 ^ d <= 2 ^ 0) by (apply Z.pow_le_mono_r; lia). cbn in *. lia. }
  destruct (Z.lt_trichotomy D d) as [Hlt|[Heq|Hgt]]; [|assumption|].
  - assert (2 ^ D <= 2 ^ (d - 1)) by (apply Z.pow_le_mono_r; lia). lia.
  - assert (2 ^ d <= 2 ^ (D - 1)) by (apply Z.pow_le_mono_r; lia). lia.
Qed.

Lemma shr_1_m mrs :
  0 <= shr_m mrs -> shr_m (shr_1 mrs) = shr_m mrs / 2.
Proof.
  destruct mrs as [m r s]. cbn [shr_m]. intros Hm.
  destruct m as [|[p|p|]|p]; cbn [shr_1 shr_m].
  - reflexivity.
  - rewrite (Pos2Z.inj_xI p). apply (Z.div_unique _ _ _ 1); lia.
  - rewrite (Pos2Z.inj_xO p). apply (Z.div_unique _ _ _ 0); lia.
  - reflexivity.
  - lia.
Qed.

Lemma iter_shr_m p : forall mrs,
  0 <= shr_m mrs -> shr_m (SpecFloat.iter_pos shr_1 p mrs) = shr_m mrs / 2 ^ Z.pos p.
Proof.
  assert (Hnn : forall mrs, 0 <= shr_m mrs -> 0 <= shr_m (shr_1 mrs)).
  { intros mrs H. rewrite shr_1_m by assumption. apply Z.div_pos; lia. }
  induction p as [p IH|p IH|]; intros mrs Hm; cbn [SpecFloat.iter_pos].
  - assert (H1 := Hnn mrs Hm).
    assert (H2 : 0 <= shr_m (SpecFloat.iter_pos shr_1 p (shr_1 mrs))).
    { rewrite IH by assumption. apply Z.div_pos; lia. }
    rewrite IH, IH, shr_1_m by assumption.
    rewrite (Pos2Z.inj_xI p).
    replace (2 * Z.pos p + 1) with (1 + Z.pos p + Z.pos p) by lia.
    rewrite !Z.pow_add_r by lia. rewrite !Z.div_div by lia. f_equal. change (2 ^ 1) with 2. ring.
  - assert (H2 : 0 <= shr_m (SpecFloat.iter_pos shr_1 p mrs)).
    { rewrite IH by assumption. apply Z.div_pos; lia. }
    rewrite IH, IH by assumption.
    rewrite (Pos2Z.inj_xO p).
    replace (2 * Z.pos p) with (Z.pos p + Z.pos p) by lia.
    rewrite !Z.pow_add_r by lia. rewrite !Z.div_div by lia. reflexivity.
  - apply shr_1_m. assumption.
Qed.

Lemma iter_xO m k : Z.pos (Pos.iter xO m k) = Z.pos m * 2 ^ Z.pos k.
Proof.
  induction k as [|k IH] using Pos.peano_ind.
  - cbn. lia.
  - rewrite Pos.iter_succ, (Pos2Z.inj_xO (Pos.iter xO m k)), IH, Pos2Z.inj_succ, Z.pow_succ_r by lia. lia.
Qed.

Lemma round_nearest_even_cases q l :
  round_nearest_even q l = q \/ round_nearest_even q l = q + 1.
Proof.
  destruct l as [|[ | | ]]; cbn; auto. destruct (Z.even q); auto.
Qed.

Lemma shr_fexp_shift m e n :
  Z.pos (digits2_pos m) = 53 + n -> - 1074 <= e + n ->
  shr_fexp prec emax (Z.pos m) e loc_Exact
  = shr (Build_shr_record (Z.pos m) false false) e n.
Proof.
  intros Hd He. unfold shr_fexp, fexp, emin, prec, emax, Zdigits2.
  cbn [shr_record_of_loc]. rewrite Hd. f_equal. lia.
Qed.

Lemma round_aux_exact m e :
  Z.pos (digits2_pos m) = 53 -> - 1074 <= e <= 971 ->
  binary_round_aux prec emax false (Z.pos m) e loc_Exact = S754_finite false m e.
Proof.
  intros Hd He. unfold binary_round_aux.
  rewrite (shr_fexp_shift m e 0) by lia. cbn [shr shr_m loc_of_shr_record round_nearest_even].
  rewrite (shr_fexp_shift m e 0) by lia. cbn [shr shr_m].
  unfold emax, prec. destruct (Z.leb_spec e (1024 - 53)); [reflexivity | lia].
Qed.

(** Rounding a mantissa of [53 + p] bits. *)
Lemma round_aux_shift m e p :
  Z.pos (digits2_pos m) = 53 + Z.pos p ->
  - 1074 <= e + Z.pos p -> e + Z.pos p < 971 ->
  exists m' e',
    binary_round_aux prec emax false (Z.pos m) e loc_Exact = S754_finite false m' e'
    /\ ((e' = e + Z.pos p /\ Z.pos m' < 2 ^ 53
         /\ (Z.pos m' = Z.pos m / 2 ^ Z.pos p \/ Z.pos m' = Z.pos m / 2 ^ Z.pos p + 1))
        \/ (e' = e + Z.pos p + 1 /\ Z.pos m' = 2 ^ 52
            /\ Z.pos m / 2 ^ Z.pos p + 1 = 2 ^ 53)).
Proof.
  intros Hd Hlo Hhi.
  pose proof (digits2_pos_bounds m) as [Dlo Dhi]. rewrite Hd in Dlo, Dhi.
  set (q := Z.pos m / 2 ^ Z.pos p).
  assert (Hq : 2 ^ 52 <= q < 2 ^ 53).
  { unfold q. replace (53 + Z.pos p - 1) with (52 + Z.pos p) in Dlo by lia.
    rewrite Z.pow_add_r in Dlo, Dhi by lia. split.
    - apply Z.div_le_lower_bound; lia.
    - apply Z.div_lt_upper_bound; lia. }
  unfold binary_round_aux.
  rewrite (shr_fexp_shift m e (Z.pos p)) by lia. cbn [shr].
  set (mrs := SpecFloat.iter_pos shr_1 p _).
  assert (Hm : shr_m mrs = q) by (unfold mrs; rewrite iter_shr_m; cbn [shr_m]; [reflexivity | lia]).
  rewrite Hm.
  set (q' := round_nearest_even q (loc_of_shr_record mrs)).
  assert (Hq' : q' = q \/ q' = q + 1) by apply round_nearest_even_cases.
  clearbody q'. clear Hm mrs.
  destruct (Z.lt_ge_cases q' (2 ^ 53)) as [Hlt | Hge].
  - destruct q' as [|m'|m']; try lia.
    assert (Hd' : Z.pos (digits2_pos m') = 53) by (apply digits2_pos_unique; lia).
    rewrite (shr_fexp_shift m' _ 0) by lia. cbn [shr shr_m].
    exists m', (e + Z.pos p). split.
    + unfold emax, prec. destruct (Z.leb_spec (e + Z.pos p) (1024 - 53)); [reflexivity | lia].
    + left. repeat split; lia.
  - assert (Heq : q' = 2 ^ 53) by lia. subst q'.
    change (2 ^ 53) with (Z.pos 9007199254740992).
    rewrite (shr_fexp_shift _ _ 1) by (cbn; lia). cbn [shr SpecFloat.iter_pos shr_1 shr_m].
    exists 4503599627370496%positive, (e + Z.pos p + 1). split.
    + unfold emax, prec. destruct (Z.leb_spec (e + Z.pos p + 1) (1024 - 53)); [reflexivity | lia].
    + right. change (Z.pos 9007199254740992) with (2 ^ 53) in *.
      change (Z.pos 4503599627370496) with (2 ^ 52). repeat split; lia.
Qed.

(** An integer of at most 53 bits converts exactly. *)
Lemma binary_normalize_exact w :
  Z.pos (digits2_pos w) <= 53 ->
  exists m,
    binary_normalize prec emax (Z.pos w) 0 false
    = S754_finite false m (Z.pos (digits2_pos w) - 53)
    /\ Z.pos m = Z.pos w * 2 ^ (53 - Z.pos (digits2_pos w))
    /\ Z.pos (digits2_pos m) = 53.
Proof.
  intros Hd. pose proof (digits2_pos_bounds w) as [Dlo Dhi].
  set (d := Z.pos (digits2_pos w)) in *.
  unfold binary_normalize, binary_round, shl_align.
  assert (Hf : fexp prec emax (d + 0) - 0 = d - 53)
    by (unfold fexp, emin, prec, emax; lia).
  fold d. rewrite Hf.
  assert (Hf' : fexp prec emax (d + 0) = d - 53)
    by (unfold fexp, emin, prec, emax; lia).
  rewrite Hf'.
  destruct (d - 53) as [|k|k] eqn:Ek; try lia.
  - assert (d = 53) by lia.
    exists w. rewrite round_aux_exact by (fold d; lia).
    replace (53 - d) with 0 by lia. repeat split; try (f_equal; lia); try lia.
  - assert (Hk : Z.pos k = 53 - d) by lia.
    assert (Hm : Z.pos (Pos.iter xO w k) = Z.pos w * 2 ^ (53 - d))
      by (rewrite iter_xO, Hk; reflexivity).
    assert (Hdm : Z.pos (digits2_pos (Pos.iter xO w k)) = 53).
    { apply digits2_pos_unique. rewrite Hm.
      assert (E1 : 2 ^ 53 = 2 ^ (53 - d) * 2 ^ d)
        by (rewrite <- Z.pow_add_r by lia; f_equal; lia).
      assert (E2 : 2 ^ (53 - 1) = 2 ^ (53 - d) * 2 ^ (d - 1))
        by (rewrite <- Z.pow_add_r by lia; f_equal; lia).
      rewrite E1, E2.
      assert (HT : 0 < 2 ^ (53 - d)) by (apply Z.pow_pos_nonneg; lia).
      revert Dlo Dhi HT.
      generalize (2 ^ (53 - d)) (2 ^ (d - 1)) (2 ^ d) (Z.pos w). clear. intros. nia. }
    exists (Pos.iter xO w k). rewrite round_aux_exact by (try assumption; lia).
    repeat split; assumption.
Qed.

Lemma div_between a b k : 0 < b -> k * b <= a < (k + 1) * b -> a / b = k.
Proof.
  intros Hb H. symmetry. apply (Z.div_unique _ _ _ (a - b * k)); lia.
Qed.

Lemma threshold_floor W :
  0 < W < 2 ^ 31 ->
  exists m s,
    int_mul_float W float_0_05 = Ok (S754_finite false m (Z.neg s))
    /\ Z.pos m / 2 ^ Z.pos s = W / 20.
Proof.
  intros HW. destruct W as [|w|w]; try lia.
  pose proof (digits2_pos_bounds w) as [Dlo Dhi].
  set (d := Z.pos (digits2_pos w)) in *.
  assert (Hd1 : 1 <= d) by (unfold d; lia).
  assert (Hd : d <= 31).
  { destruct (Z.le_gt_cases d 31) as [?|Hgt]; [assumption|].
    assert (2 ^ 31 <= 2 ^ (d - 1)) by (apply Z.pow_le_mono_r; lia). lia. }
  destruct (binary_normalize_exact w) as (mW & HN & HmW & HdW); [fold d; lia|].
  fold d in HN, HmW.
  unfold int_mul_float, float_of_int. rewrite HN.
  unfold fmul, float_0_05. cbn [SFmul xorb].
  pose proof (digits2_pos_bounds mW) as [Mlo Mhi]. rewrite HdW in Mlo, Mhi.
  change (53 - 1) with 52 in Mlo.
  set (T := 2 ^ (53 - d)) in *.
  assert (HT : 2 ^ 22 <= T) by (apply Z.pow_le_mono_r; lia).
  set (k := Z.pos w / 20).
  assert (Hk : 20 * k <= Z.pos w < 20 * k + 20).
  { unfold k. pose proof (Z.mul_div_le (Z.pos w) 20).
    pose proof (Z.mul_succ_div_gt (Z.pos w) 20). lia. }
  assert (Hk0 : 0 <= k) by (apply Z.div_pos; lia).
  set (A := Z.pos mW) in *.
  set (KT := k * T).
  assert (H1 : 20 * KT <= A) by (unfold KT; nia).
  assert (H2 : A + T <= 20 * KT + 20 * T) by (unfold KT; nia).
  set (mc := 7205759403792794%positive).
  assert (HM : Z.pos (mW * mc) = A * 7205759403792794) by (rewrite Pos2Z.inj_mul; reflexivity).
  (* the two possible widths of the product *)
  assert (Hcore : forall p : positive,
    2 ^ 52 <= 2 ^ Z.pos p <= 2 ^ 53 -> 52 <= Z.pos p <= 53 ->
    Z.pos (digits2_pos (mW * mc)) = 53 + Z.pos p ->
    exists m s,
      Ok (binary_round_aux prec emax false (Z.pos (mW * mc)) (d - 53 + -57) loc_Exact)
      = Ok (S754_finite false m (Z.neg s))
      /\ Z.pos m / 2 ^ Z.pos s = k).
  { intros p HP Hp Hdig.
    destruct (round_aux_shift (mW * mc) (d - 53 + -57) p Hdig) as (m' & e' & Hr & Hcases);
      [lia | lia |].
    rewrite Hr. clear Hr.
    set (P := 2 ^ Z.pos p) in *.
    set (s := 110 - d - Z.pos p).
    assert (Hs : 26 <= s) by (unfold s; lia).
    set (S := 2 ^ s).
    assert (HS : 0 < S) by (apply Z.pow_pos_nonneg; lia).
    assert (HSP : S * P = 2 ^ 57 * T).
    { unfold S, P, T. rewrite <- !Z.pow_add_r by lia. f_equal. unfold s. lia. }
    set (q := Z.pos (mW * mc) / P) in *.
    assert (Hq1 : q * P <= Z.pos (mW * mc)).
    { unfold q. rewrite Z.mul_comm. apply Z.mul_div_le. lia. }
    assert (Hlow : k * S <= q).
    { unfold q. apply Z.div_le_lower_bound; [lia|].
      replace (P * (k * S)) with (2 ^ 57 * KT)
        by (unfold KT; transitivity (k * (S * P)); [rewrite HSP|]; ring).
      rewrite HM. change (2 ^ 57) with 144115188075855872. lia. }
    assert (Hup : q + 2 <= (k + 1) * S).
    { assert (Hlt : q * P < ((k + 1) * S - 1) * P).
      { replace (((k + 1) * S - 1) * P) with (2 ^ 57 * KT + 2 ^ 57 * T - P)
          by (unfold KT; transitivity ((k + 1) * (S * P) - P); [rewrite HSP|]; ring).
        rewrite HM in Hq1.
        change (2 ^ 57) with 144115188075855872.
        change (2 ^ 53) with 9007199254740992 in *.
        change (2 ^ 52) with 4503599627370496 in *.
        change (2 ^ 22) with 4194304 in *. lia. }
      apply Z.mul_lt_mono_pos_r in Hlt; lia. }
    destruct Hcases as [(He' & Hm53 & Hm') | (He' & Hm' & Hq53)].
    - exists m', (Z.to_pos s). split.
      + do 2 f_equal. rewrite <- Pos2Z.opp_pos, Z2Pos.id by lia. unfold s. lia.
      + rewrite Z2Pos.id by lia. apply div_between; [exact HS|]. fold S. lia.
    - exists m', (Z.to_pos (s - 1)). split.
      + do 2 f_equal. rewrite <- Pos2Z.opp_pos, Z2Pos.id by lia. unfold s. lia.
      + rewrite Z2Pos.id by lia.
        assert (HS2 : S = 2 * 2 ^ (s - 1)).
        { unfold S. rewrite <- Z.pow_succ_r by lia. f_equal. lia. }
        apply div_between; [apply Z.pow_pos_nonneg; lia|].
        rewrite Hm'. change (2 ^ 53) with (2 * 2 ^ 52) in Hq53. fold q in Hq53. lia. }
  change (2 ^ 53) with 9007199254740992 in *.
  change (2 ^ 52) with 4503599627370496 in *.
  destruct (Z.lt_ge_cases (Z.pos (mW * mc)) (2 ^ 105)) as [Hlt | Hge].
  - apply (Hcore 52%positive); [cbn; lia | lia |].
    apply digits2_pos_unique. split; [|exact Hlt].
    rewrite HM. change (2 ^ (53 + 52 - 1)) with (4503599627370496 * 4503599627370496). lia.
  - apply (Hcore 53%positive); [cbn; lia | lia |].
    apply digits2_pos_unique. split; [exact Hge|].
    rewrite HM. change (2 ^ (53 + 53)) with (9007199254740992 * 9007199254740992). lia.
Qed.

(** Comparing an integer with the threshold [W * 0.05] is comparing its
    twentyfold with [W]. *)
Lemma threshold_compare W :
  0 <= W < 2 ^ 31 ->
  exists t,
    int_mul_float W float_0_05 = Ok t
    /\ forall n, int_gt_float n t = (W <? 20 * n)
                 /\ int_lt_float n (SFopp t) = (20 * n <? - W).
Proof.
  intros HW. destruct (Z.eq_dec W 0) as [-> | Hne].
  - exists (S754_zero false). split; [reflexivity|]. intros n.
    unfold int_gt_float, int_lt_float. cbn [SFopp int_compare_float].
    destruct (Z.compare_spec n 0); destruct (Z.ltb_spec 0 (20 * n));
      destruct (Z.ltb_spec (20 * n) (- 0)); split; try reflexivity; lia.
  - destruct (threshold_floor W) as (m & s & Ht & Hfl); [lia|].
    exists (S754_finite false m (Z.neg s)). split; [exact Ht|]. intros n.
    unfold int_gt_float, int_lt_float. cbn [SFopp int_compare_float cond_Zopp negb].
    assert (HS : 0 < 2 ^ Z.pos s) by (apply Z.pow_pos_nonneg; lia).
    pose proof (Z.mul_div_le (Z.pos m) _ HS) as Hlo.
    pose proof (Z.mul_succ_div_gt (Z.pos m) _ HS) as Hhi.
    rewrite Hfl in Hlo, Hhi.
    pose proof (Z.mul_div_le W 20 ltac:(lia)) as Wlo.
    pose proof (Z.mul_succ_div_gt W 20 ltac:(lia)) as Whi.
    change (Z.neg m) with (- Z.pos m).
    revert Hlo Hhi Wlo Whi HS.
    generalize (2 ^ Z.pos s) (W / 20) (Z.pos m). intros S k M Hlo Hhi Wlo Whi HS.
    assert (E1 : M < n * S <-> k < n) by (split; intros; nia).
    assert (E2 : n * S < - M <-> n < - k) by (split; intros; nia).
    destruct (Z.compare_spec (n * S) M); destruct (Z.ltb_spec W (20 * n));
      destruct (Z.compare_spec (n * S) (- M)); destruct (Z.ltb_spec (20 * n) (- W));
      split; try reflexivity; exfalso; lia.
Qed.

(** ** Running computations *)

Lemma bind_Ok {A B} (c : M A) (k : A -> M B) st a st' :
  c st = (Ok a, st') -> bind c k st = k a st'.
Proof. intros H. unfold bind. rewrite H. reflexivity. Qed.

Lemma bind_Raise {A B} (c : M A) (k : A -> M B) st e st' :
  c st = (Raise e, st') -> bind c k st = (Raise e, st').
Proof. intros H. unfold bind. rewrite H. reflexivity. Qed.

Lemma deref_Some {A} (sel : Store -> list A) r st a :
  sel st !! r = Some a -> deref sel r st = (Ok a, st).
Proof. intros H. unfold deref. rewrite H. reflexivity. Qed.

Lemma draw_Some r op st f :
  frames st !! r = Some f ->
  draw r op st = (Ok tt, set_frames (<[r := paint op f]> (frames st)) st).
Proof.
  intros H. unfold draw. rewrite (bind_Ok _ _ _ _ _ (deref_Some frames _ _ _ H)).
  reflexivity.
Qed.

Lemma update_detector_Some r f st d :
  detectors st !! r = Some d ->
  update_detector r f st = (Ok tt, set_detectors (<[r := f d]> (detectors st)) st).
Proof.
  intros H. unfold update_detector.
  rewrite (bind_Ok _ _ _ _ _ (deref_Some detectors _ _ _ H)). reflexivity.
Qed.

Lemma update_capture_Some r f st c :
  captures st !! r = Some c ->
  update_capture r f st = (Ok tt, set_captures (<[r := f c]> (captures st)) st).
Proof.
  intros H. unfold update_capture.
  rewrite (bind_Ok _ _ _ _ _ (deref_Some captures _ _ _ H)). reflexivity.
Qed.

(** Painting twice on the buffer [r] is painting once with both. *)
Lemma insert_paint (fs : list Frame) r f :
  fs !! r = Some f -> forall g, <[r := g]> fs !! r = Some g.
Proof.
  intros H g. apply list_lookup_insert_eq. eapply lookup_lt_Some; eauto.
Qed.

#[local] Create HintDb store.
#[local] Hint Resolve insert_paint lookup_app_l_Some : store.

(** One step of symbolic execution: replace a lookup in the goal by the
    object it finds. *)
Ltac look :=
  match goal with
  | |- context [ @lookup _ _ _ _ ?i ?L ] =>
      let H := fresh in
      eassert (H : L !! i = Some _) by (eauto 12 with store);
      rewrite H; clear H
  end.

Ltac unfold_py :=
  unfold bind, ret, raise, lift, gets, modify, try_except, deref, dangling,
    new_frame, new_detector, new_capture, update_detector, update_capture, draw,
    set_frames, set_detectors, set_captures, set_detector, set_camera.

Ltac exec :=
  repeat (progress unfold_py); cbn -[Z.sub String.append];
  repeat (look; cbn -[Z.sub String.append]).

Arguments main.movement : simpl never.
Arguments main.to_pixel : simpl never.
Arguments main.cvtColor_BGR2RGB : simpl never.

Section ClassifierFacts.

Variable multi_face_landmarks : Frame -> option (list FaceLandmarks).

Abbreviation detect_movement := (main.detect_movement multi_face_landmarks).

Lemma after_call_eq st self frame img ops d' (F : list Frame) D :
  frames st !! frame = Some img ->
  F = <[frame := painted ops img]> (frames st ++ [main.cvtColor_BGR2RGB img]) ->
  D = <[self := d']> (detectors st) ->
  mkStore F D (captures st) (detector st) (camera st)
  = after_call st self frame img ops d'.
Proof.
  intros Hf -> ->. unfold after_call. f_equal.
  apply insert_app_l. eapply lookup_lt_Some; eauto.
Qed.

Ltac finish_call Hf :=
  f_equal; eapply after_call_eq;
  [ exact Hf
  | rewrite ?list_insert_insert_eq; unfold painted, paint; cbn;
    rewrite <- ?app_assoc; reflexivity
  | first [ reflexivity | symmetry; apply list_insert_id; assumption ] ].

Lemma detect_movement_no_face st self frame img d :
  frames st !! frame = Some img ->
  detectors st !! self = Some d ->
  face_mesh_closed d = false ->
  first_face multi_face_landmarks img = None ->
  detect_movement self frame st
  = (Ok (main.NO_FACE, frame), after_call st self frame img [no_face_text] d).
Proof.
  intros Hf Hd Hc Hn.
  unfold main.detect_movement, main.face_mesh_process.
  exec. rewrite Hc. exec. rewrite list_lookup_middle by reflexivity.
  unfold first_face in Hn.
  destruct (multi_face_landmarks (main.cvtColor_BGR2RGB img)) as [[|face rest]|];
    try discriminate; exec; finish_call Hf.
Qed.

Lemma nose_pixel_Ok img face p :
  nose_pixel img face = Ok p ->
  exists nose_tip,
    landmark face !! 1%nat = Some nose_tip
    /\ main.to_pixel (x nose_tip) (width img) = Ok (fst p)
    /\ main.to_pixel (y nose_tip) (height img) = Ok (snd p).
Proof.
  unfold nose_pixel. intros H.
  destruct (landmark face !! 1%nat) as [tip|]; [|discriminate].
  destruct (main.to_pixel (x tip) (width img)) as [nx|] eqn:Ex; [|discriminate].
  destruct (main.to_pixel (y tip) (height img)) as [ny|] eqn:Ey; [|discriminate].
  exists tip. inversion H; subst. cbn. auto.
Qed.

Lemma first_face_Some img face :
  first_face multi_face_landmarks img = Some face ->
  exists rest, multi_face_landmarks (main.cvtColor_BGR2RGB img) = Some (face :: rest).
Proof.
  unfold first_face. intros H.
  destruct (multi_face_landmarks _) as [[|f rest]|]; try discriminate.
  inversion H; subst. eauto.
Qed.

(** The first detection, or the first after [recalibrate]. *)
Lemma detect_movement_calibrates st self frame img d face nose :
  frames st !! frame = Some img ->
  detectors st !! self = Some d ->
  face_mesh_closed d = false ->
  first_face multi_face_landmarks img = Some face ->
  nose_pixel img face = Ok nose ->
  calibrated d = false \/ reference_nose_tip d = None ->
  detect_movement self frame st
  = (Ok (main.CENTER_CALIBRATED, frame),
     after_call st self frame img
       (mesh_overlay face :: text_overlays img main.CENTER_CALIBRATED)
       (mkFaceDetector (Some nose) true false)).
Proof.
  intros Hf Hd Hc Hface Hnose Hcal.
  destruct (first_face_Some _ _ Hface) as [rest Hres].
  destruct (nose_pixel_Ok _ _ _ Hnose) as (tip & Htip & Hx & Hy).
  destruct nose as [nx ny]; cbn [fst snd] in *.
  unfold main.detect_movement, main.face_mesh_process.
  exec. rewrite Hc. exec. rewrite list_lookup_middle by reflexivity.
  rewrite Hres. exec. rewrite Hx, Hy. exec.
  destruct (calibrated d) eqn:Ec; [destruct (reference_nose_tip d) eqn:Er|].
  - destruct Hcal; discriminate.
  - exec. rewrite Hc. finish_call Hf.
  - exec. rewrite Hc. finish_call Hf.
Qed.

(** A calibrated classifier measures the displacement. *)
Lemma detect_movement_classifies st self frame img d face nose reference direction :
  frames st !! frame = Some img ->
  detectors st !! self = Some d ->
  face_mesh_closed d = false ->
  first_face multi_face_landmarks img = Some face ->
  nose_pixel img face = Ok nose ->
  calibrated d = true ->
  reference_nose_tip d = Some reference ->
  main.movement (width img) (height img) reference nose main.NO_FACE = Ok direction ->
  detect_movement self frame st
  = (Ok (direction, frame),
     after_call st self frame img
       (mesh_overlay face :: marker_overlays reference nose ++ text_overlays img direction)
       d).
Proof.
  intros Hf Hd Hc Hface Hnose Hcal Href Hmov.
  destruct (first_face_Some _ _ Hface) as [rest Hres].
  destruct (nose_pixel_Ok _ _ _ Hnose) as (tip & Htip & Hx & Hy).
  destruct nose as [nx ny]; cbn [fst snd] in *.
  unfold main.detect_movement, main.face_mesh_process.
  exec. rewrite Hc. exec. rewrite list_lookup_middle by reflexivity.
  rewrite Hres. exec. rewrite Hx, Hy. exec.
  rewrite Hcal, Href, Hmov. exec. finish_call Hf.
Qed.

End ClassifierFacts.

(** ** The session: what [get_detector] and [get_camera] do *)

Lemma get_detector_Some env st r :
  detector st = Some r -> get_detector env st = (Ok r, st).
Proof. intros H. unfold get_detector. exec. rewrite H. reflexivity. Qed.

Lemma get_detector_None env st :
  detector st = None ->
  get_detector env st
  = match mesh env with
    | Some e => (Raise e, st)
    | None => (Ok (length (detectors st)),
               mkStore (frames st) (detectors st ++ [fresh_detector]) (captures st)
                       (Some (length (detectors st))) (camera st))
    end.
Proof.
  intros H. unfold get_detector, main.FaceDetector_init. exec. rewrite H.
  destruct (mesh env); reflexivity.
Qed.

Lemma get_camera_open env st r c :
  camera st = Some r -> captures st !! r = Some c -> isOpened c = true ->
  get_camera env st = (Ok r, st).
Proof.
  intros H Hc Ho. unfold get_camera. exec. rewrite H. exec. rewrite Ho. reflexivity.
Qed.

Lemma get_camera_reopen env st :
  active st = false ->
  (forall r, camera st = Some r -> is_Some (captures st !! r)) ->
  get_camera env st = (Ok (length (captures st)), with_new_capture env st).
Proof.
  unfold active. intros Ha Hr. unfold get_camera. exec.
  destruct (camera st) as [r|] eqn:E; [|reflexivity].
  destruct (Hr r eq_refl) as [c Hc]. rewrite Hc in Ha. exec. rewrite Ha. reflexivity.
Qed.

Lemma active_Some st :
  active st = true ->
  exists r c, camera st = Some r /\ captures st !! r = Some c /\ isOpened c = true.
Proof.
  unfold active. destruct (camera st) as [r|]; [|discriminate].
  destruct (captures st !! r) as [c|] eqn:E; [|discriminate]. eauto.
Qed.

(** ** The invariant is kept *)

Lemma consistent_initial : consistent initial_store.
Proof. split; cbn; intros; discriminate. Qed.

Lemma consistent_frames st F :
  consistent st ->
  consistent (mkStore F (detectors st) (captures st) (detector st) (camera st)).
Proof. intros [H1 H2 H3]. split; cbn; auto. Qed.

Lemma inactive_all_closed st :
  consistent st -> active st = false ->
  forall i c, captures st !! i = Some c -> isOpened c = false.
Proof.
  intros [_ _ H3] Ha i c Hc. destruct (isOpened c) eqn:E; [|reflexivity].
  unfold active in Ha. rewrite (H3 i c Hc E), Hc in Ha. congruence.
Qed.

Lemma consistent_new_detector st :
  consistent st ->
  consistent (mkStore (frames st) (detectors st ++ [fresh_detector]) (captures st)
                      (Some (length (detectors st))) (camera st)).
Proof.
  intros [H1 H2 H3]. split; cbn; auto.
  intros r [= <-]. exists fresh_detector. split; [|reflexivity].
  apply list_lookup_middle. reflexivity.
Qed.

Lemma consistent_new_capture env st :
  consistent st -> active st = false -> consistent (with_new_capture env st).
Proof.
  intros Hc Ha. pose proof (inactive_all_closed st Hc Ha) as Hcl.
  destruct Hc as [H1 H2 H3]. split; cbn; auto.
  - intros r [= <-]. rewrite list_lookup_middle by reflexivity. eauto.
  - intros i c Hi Ho. f_equal.
    apply lookup_app_Some in Hi. destruct Hi as [Hl | [Hge Hr]].
    + rewrite (Hcl i c Hl) in Ho. discriminate.
    + destruct (i - length (captures st))%nat as [|k] eqn:E.
      * lia.
      * cbn in Hr. discriminate.
Qed.

Lemma consistent_update_detector st r d d' :
  consistent st ->
  detectors st !! r = Some d ->
  face_mesh_closed d' = face_mesh_closed d ->
  consistent (mkStore (frames st) (<[r := d']> (detectors st)) (captures st)
                      (detector st) (camera st)).
Proof.
  intros [H1 H2 H3] Hd Hc. split; cbn; auto.
  intros r0 Hr0. destruct (H1 r0 Hr0) as (d0 & Hd0 & Hc0).
  destruct (decide (r = r0)) as [->|Hne].
  - exists d'. split.
    + apply list_lookup_insert_eq. eapply lookup_lt_Some; eauto.
    + congruence.
  - exists d0. split; [|assumption]. rewrite list_lookup_insert_ne; auto.
Qed.

Lemma consistent_stopped st : consistent st -> consistent (stopped st).
Proof.
  intros Hc. split; cbn; try discriminate.
  intros i c Hi Ho. exfalso.
  destruct Hc as [_ _ H3]. destruct (camera st) as [r|] eqn:E.
  - destruct (decide (r = i)) as [->|Hne].
    + assert (Hlt : (i < length (captures st))%nat).
      { rewrite <- (length_insert (captures st) i (mkVideoCapture false)).
        eapply lookup_lt_Some; eauto. }
      rewrite list_lookup_insert_eq in Hi by assumption.
      inversion Hi; subst. discriminate.
    + rewrite list_lookup_insert_ne in Hi by assumption.
      specialize (H3 i c Hi Ho). congruence.
  - specialize (H3 i c Hi Ho). congruence.
Qed.

(** ** The endpoints *)

Lemma alter_as_insert {A} (f : A -> A) (l : list A) r a :
  l !! r = Some a -> <[r := f a]> l = alter f r l.
Proof.
  revert r. induction l as [|b l IH]; intros [|r] H; try discriminate; cbn in *.
  - inversion H; subst. reflexivity.
  - f_equal. auto.
Qed.

Lemma stop_detection_stopped st :
  consistent st -> stop_detection st = (Ok stopped_ok, stopped st).
Proof.
  intros [H1 H2 H3]. unfold stop_detection, VideoCapture_release, main.release, stopped.
  exec. destruct (camera st) as [rc|] eqn:Ec; destruct (detector st) as [rd|] eqn:Ed; exec.
  - destruct (H2 rc eq_refl) as [c Hc]. rewrite Hc. exec. rewrite Ed. exec.
    destruct (H1 rd eq_refl) as (d & Hd & Hcl). rewrite Hd, Hcl. exec.
    rewrite <- (alter_as_insert
                  (fun d => mkFaceDetector (reference_nose_tip d) (calibrated d) true)
                  _ _ _ Hd).
    reflexivity.
  - destruct (H2 rc eq_refl) as [c Hc]. rewrite Hc. exec. rewrite Ed. reflexivity.
  - destruct (H1 rd eq_refl) as (d & Hd & Hcl). rewrite Hd, Hcl. exec.
    rewrite <- (alter_as_insert
                  (fun d => mkFaceDetector (reference_nose_tip d) (calibrated d) true)
                  _ _ _ Hd).
    rewrite ?Ec. reflexivity.
  - destruct st; cbn in *; subst; reflexivity.
Qed.

Lemma stop_detection_nothing st :
  camera st = None -> detector st = None -> stop_detection st = (Ok stopped_ok, st).
Proof.
  intros Hc Hd. unfold stop_detection. exec. rewrite Hc, Hd. exec.
  destruct st; cbn in *; subst; reflexivity.
Qed.

Lemma start_detection_active env st r :
  active st = true -> detector st = Some r ->
  start_detection env st = (Ok started, st).
Proof.
  intros Ha Hd. destruct (active_Some _ Ha) as (rc & c & Hc & Hl & Ho).
  unfold start_detection, try_except.
  rewrite (bind_Ok _ _ _ _ _ (get_detector_Some env _ _ Hd)).
  rewrite (bind_Ok _ _ _ _ _ (get_camera_open env _ _ _ Hc Hl Ho)).
  rewrite (bind_Ok _ _ _ _ _ (deref_Some captures _ _ _ Hl)).
  rewrite Ho. reflexivity.
Qed.

(** [start_detection] from a store where a classifier exists. *)
Lemma start_detection_with_detector env st r :
  consistent st -> detector st = Some r ->
  exists resp st',
    start_detection env st = (Ok resp, st')
    /\ consistent st'
    /\ detector st' = Some r
    /\ (if active st then st' = st else st' = with_new_capture env st)
    /\ (if active st || device env
        then resp = started /\ active st' = true
        else status_code resp = 500).
Proof.
  intros Hc Hd. destruct (active st) eqn:Ha.
  - exists started, st. rewrite (start_detection_active env st r Ha Hd). cbn. auto 10.
  - pose proof (get_camera_reopen env st Ha (camera_allocated st Hc)) as Hg.
    unfold start_detection, try_except.
    rewrite (bind_Ok _ _ _ _ _ (get_detector_Some env _ _ Hd)).
    rewrite (bind_Ok _ _ _ _ _ Hg).
    assert (Hl : captures (with_new_capture env st) !! length (captures st)
                 = Some (mkVideoCapture (device env)))
      by (apply list_lookup_middle; reflexivity).
    rewrite (bind_Ok _ _ _ _ _ (deref_Some captures _ _ _ Hl)). cbn [isOpened orb].
    destruct (device env) eqn:Edev; eexists _, _; (split; [reflexivity|]);
      (split; [apply consistent_new_capture; assumption|]);
      (split; [exact Hd|]); (split; [reflexivity|]).
    + split; [reflexivity|]. unfold active. cbn [camera with_new_capture].
      rewrite Hl. reflexivity.
    + reflexivity.
Qed.

Lemma active_with_new_detector st : active (with_new_detector st) = active st.
Proof. reflexivity. Qed.

(** [start_detection] in general: it always answers, it keeps the
    invariant, and when it answers 200 the session is active, with a
    capture object created only if the session was not active before. *)
Lemma start_detection_post env st :
  consistent st ->
  exists resp st',
    start_detection env st = (Ok resp, st')
    /\ consistent st'
    /\ (status_code resp = 200 ->
        resp = started /\ active st' = true /\ is_Some (detector st')
        /\ captures st' = if active st then captures st
                          else (captures st ++ [mkVideoCapture true])).
Proof.
  intros Hc. destruct (detector st) as [r|] eqn:Ed.
  - destruct (start_detection_with_detector env st r Hc Ed)
      as (resp & st' & Hrun & Hc' & Hd' & Hst & Hres).
    exists resp, st'. split; [exact Hrun|]. split; [exact Hc'|]. intros H200.
    destruct (active st) eqn:Ha; cbn [orb] in Hres.
    + destruct Hres as [-> Ha']. subst st'. rewrite Ed. eauto.
    + destruct (device env) eqn:Edev.
      * destruct Hres as [-> Ha']. rewrite Hd'. subst st'.
        unfold with_new_capture at 2. cbn [captures]. rewrite Edev. eauto.
      * rewrite H200 in Hres. discriminate.
  - pose proof (get_detector_None env st Ed) as Hg.
    destruct (mesh env) as [e|] eqn:Em.
    + exists (status_message "error" (str e) 500), st.
      unfold start_detection, try_except.
      rewrite (bind_Raise _ _ _ _ _ Hg).
      split; [reflexivity|]. split; [assumption|]. cbn. intros; discriminate.
    + fold (with_new_detector st) in Hg.
      pose proof (consistent_new_detector st Hc) as Hc1.
      fold (with_new_detector st) in Hc1.
      destruct (start_detection_with_detector env (with_new_detector st)
                  (length (detectors st)) Hc1 eq_refl)
        as (resp & st' & Hrun & Hc' & Hd' & Hst & Hres).
      exists resp, st'. split.
      * unfold start_detection, try_except in *.
        rewrite (bind_Ok _ _ _ _ _ Hg).
        rewrite (bind_Ok _ _ _ _ _
                   (get_detector_Some env (with_new_detector st)
                      (length (detectors st)) eq_refl)) in Hrun.
        exact Hrun.
      * split; [assumption|]. intros H200.
        rewrite active_with_new_detector in Hst, Hres.
        destruct (active st) eqn:Ha; cbn [orb] in Hres.
        -- destruct Hres as [-> Ha']. rewrite Hd'. subst st'. eauto.
        -- destruct (device env) eqn:Edev.
           ++ destruct Hres as [-> Ha']. rewrite Hd'. subst st'.
              unfold with_new_capture at 2. cbn [captures with_new_detector].
              rewrite Edev. eauto.
           ++ rewrite H200 in Hres. discriminate.
Qed.

Lemma none_open (l : list VideoCapture) :
  (forall i c, l !! i = Some c -> isOpened c = false) ->
  length (List.filter isOpened l) = 0%nat.
Proof.
  induction l as [|c l IH]; intros H; [reflexivity|]. cbn.
  rewrite (H 0%nat c eq_refl). apply IH. intros i c' Hi. exact (H (S i) c' Hi).
Qed.

Lemma one_open (l : list VideoCapture) r c :
  l !! r = Some c -> isOpened c = true ->
  (forall i c', l !! i = Some c' -> isOpened c' = true -> i = r) ->
  length (List.filter isOpened l) = 1%nat.
Proof.
  revert r. induction l as [|c0 l IH]; intros r Hr Ho Hu; [discriminate|].
  destruct r as [|r]; cbn in *.
  - inversion Hr; subst. rewrite Ho. cbn. f_equal. apply none_open.
    intros i c' Hi. destruct (isOpened c') eqn:E; [|reflexivity].
    specialize (Hu (S i) c' Hi E). discriminate.
  - destruct (isOpened c0) eqn:E0.
    + specialize (Hu 0%nat c0 eq_refl E0). discriminate.
    + apply (IH r Hr Ho). intros i c' Hi Hc'.
      specialize (Hu (S i) c' Hi Hc'). congruence.
Qed.

Lemma active_one_handle st :
  consistent st -> active st = true -> open_handles st = 1%nat.
Proof.
  intros Hc Ha. destruct (active_Some _ Ha) as (r & c & Hcam & Hl & Ho).
  unfold open_handles. apply (one_open _ r c Hl Ho).
  intros i c' Hi Hc'. pose proof (open_is_camera st Hc i c' Hi Hc'). congruence.
Qed.

Lemma inactive_no_handle st :
  consistent st -> active st = false -> open_handles st = 0%nat.
Proof.
  intros Hc Ha. apply none_open. apply (inactive_all_closed st Hc Ha).
Qed.

(** At most one capture object holds the device at any time. *)
Lemma at_most_one_handle st :
  consistent st -> (open_handles st <= 1)%nat.
Proof.
  intros Hc. destruct (active st) eqn:Ha.
  - rewrite (active_one_handle st Hc Ha). lia.
  - rewrite (inactive_no_handle st Hc Ha). lia.
Qed.

Lemma recalibrate_unstarted env st :
  detector st = None ->
  detection.recalibrate env st
  = match mesh env with
    | None => (Ok recalibrated, with_new_detector st)
    | Some e => (Ok (status_message "error" (str e) 500), st)
    end.
Proof.
  intros Hd. unfold detection.recalibrate, try_except.
  pose proof (get_detector_None env st Hd) as Hg.
  destruct (mesh env) as [e|].
  - rewrite (bind_Raise _ _ _ _ _ Hg). reflexivity.
  - rewrite (bind_Ok _ _ _ _ _ Hg). unfold main.recalibrate.
    assert (Hl : (detectors st ++ [fresh_detector]) !! length (detectors st)
                 = Some fresh_detector) by (apply list_lookup_middle; reflexivity).
    erewrite bind_Ok by (apply update_detector_Some; exact Hl).
    cbn. unfold with_new_detector, set_detectors. cbn. do 2 f_equal.
    apply list_insert_id. exact Hl.
Qed.

Lemma recalibrate_started env st r d :
  detector st = Some r -> detectors st !! r = Some d ->
  detection.recalibrate env st
  = (Ok recalibrated,
     mkStore (frames st)
             (<[r := mkFaceDetector None false (face_mesh_closed d)]> (detectors st))
             (captures st) (detector st) (camera st)).
Proof.
  intros Hd Hl. unfold detection.recalibrate, try_except, main.recalibrate.
  rewrite (bind_Ok _ _ _ _ _ (get_detector_Some env _ _ Hd)).
  erewrite bind_Ok by (apply update_detector_Some; exact Hl).
  reflexivity.
Qed.

Section Stream.

Variable multi_face_landmarks : Frame -> option (list FaceLandmarks).
Variable imencode_jpg : Frame -> string.

Abbreviation next := (detection.next multi_face_landmarks imencode_jpg).

(** A read that fails, because the device delivers nothing or because
    the capture object was released, ends the stream: [StopIteration],
    and the store is what it was. *)
Lemma next_read_failure env grab face_detector cap st c :
  captures st !! cap = Some c ->
  grab = None \/ isOpened c = false ->
  next env grab (gen_suspended face_detector cap) st = (Ok None, gen_finished, st).
Proof.
  intros Hc Hfail. unfold detection.next, loop_body, read.
  cbn zeta. unfold bind at 1.
  rewrite (bind_Ok _ _ _ _ _ (deref_Some captures _ _ _ Hc)).
  destruct (isOpened c); [|reflexivity].
  destruct Hfail as [-> | ?]; [reflexivity | discriminate].
Qed.

(** After [stop_detection], a stream that still holds the capture object
    of the session ends at its next read. *)
Lemma next_after_stop env grab face_detector cap st :
  consistent st -> camera st = Some cap ->
  next env grab (gen_suspended face_detector cap) (stopped st)
  = (Ok None, gen_finished, stopped st).
Proof.
  intros Hc Hcam. destruct (camera_allocated st Hc cap Hcam) as [c Hl].
  apply (next_read_failure env grab face_detector cap (stopped st)
           (mkVideoCapture false)).
  - unfold stopped. cbn [captures]. rewrite Hcam.
    apply list_lookup_insert_eq. eapply lookup_lt_Some; eauto.
  - right. reflexivity.
Qed.

End Stream.

(** ** Every computation of the program keeps the invariant *)

Lemma preserves_ret {A} P (a : A) : preserves P (ret a).
Proof. intros st H. exact H. Qed.

Lemma preserves_raise {A} P e : preserves P (@raise A e).
Proof. intros st H. exact H. Qed.

Lemma preserves_lift {A} P (r : result A) : preserves P (lift r).
Proof. intros st H. exact H. Qed.

Lemma preserves_gets {A} P (f : Store -> A) : preserves P (gets f).
Proof. intros st H. exact H. Qed.

Lemma preserves_bind {A B} P (c : M A) (k : A -> M B) :
  preserves P c -> (forall a, preserves P (k a)) -> preserves P (bind c k).
Proof.
  intros Hc Hk st H. unfold bind. specialize (Hc st H).
  destruct (c st) as [[a|e] st']; cbn in *; [apply Hk; assumption | assumption].
Qed.

Lemma preserves_try_except {A} P (c : M A) (h : exn -> M A) :
  preserves P c -> (forall e, preserves P (h e)) -> preserves P (try_except c h).
Proof.
  intros Hc Hh st H. unfold try_except. specialize (Hc st H).
  destruct (c st) as [[a|e] st']; cbn in *; [assumption | apply Hh; assumption].
Qed.

Lemma preserves_deref {A} P (sel : Store -> list A) r : preserves P (deref sel r).
Proof. intros st H. unfold deref. destruct (sel st !! r); exact H. Qed.

Lemma keeps_new_frame f : keeps (new_frame f).
Proof. intros st H. apply consistent_frames. exact H. Qed.

Lemma keeps_draw r op : keeps (draw r op).
Proof.
  intros st H. unfold draw, bind, deref.
  destruct (frames st !! r); [apply consistent_frames|]; exact H.
Qed.

Lemma keeps_update_detector r f :
  (forall d, face_mesh_closed (f d) = face_mesh_closed d) ->
  keeps (update_detector r f).
Proof.
  intros Hf st H. unfold update_detector, bind, deref.
  destruct (detectors st !! r) as [d|] eqn:E; [|exact H].
  apply (consistent_update_detector st r d (f d) H E (Hf d)).
Qed.

#[local] Create HintDb keeps.
#[local] Hint Resolve preserves_ret preserves_raise preserves_lift preserves_gets
  preserves_deref keeps_new_frame keeps_draw : keeps.

Ltac keeps_step :=
  first [ apply keeps_update_detector; intros ?; reflexivity
        | solve [auto with keeps]
        | apply preserves_bind; [|intros ?]
        | apply preserves_try_except; [|intros ?]
        | match goal with |- preserves _ (match ?x with _ => _ end) => destruct x end
        | match goal with |- preserves _ (if ?x then _ else _) => destruct x end ].

Lemma keeps_detect_movement mfl self frame :
  keeps (main.detect_movement mfl self frame).
Proof.
  unfold main.detect_movement, main.face_mesh_process. cbn zeta. repeat keeps_step.
Qed.

Lemma keeps_get_detector env : keeps (get_detector env).
Proof.
  intros st H. destruct (detector st) as [r|] eqn:E.
  - rewrite (get_detector_Some env st r E). exact H.
  - rewrite (get_detector_None env st E). destruct (mesh env); [exact H|].
    apply consistent_new_detector. exact H.
Qed.

Lemma keeps_get_camera env : keeps (get_camera env).
Proof.
  intros st H. destruct (active st) eqn:Ha.
  - destruct (active_Some _ Ha) as (r & c & Hc & Hl & Ho).
    rewrite (get_camera_open env st r c Hc Hl Ho). exact H.
  - rewrite (get_camera_reopen env st Ha (camera_allocated st H)).
    apply consistent_new_capture; assumption.
Qed.

Lemma keeps_loop_body mfl enc face_detector cap grab :
  keeps (loop_body mfl enc face_detector cap grab).
Proof.
  unfold loop_body, read. apply preserves_bind.
  - repeat keeps_step.
  - intros [success frame]. cbn [fst snd].
    destruct success; [destruct frame|]; auto with keeps.
    apply preserves_bind; [apply keeps_detect_movement|]. intros ?. repeat keeps_step.
Qed.

Lemma next_consistent mfl enc env grab g st :
  consistent st -> consistent (snd (detection.next mfl enc env grab g st)).
Proof.
  intros H. unfold detection.next. cbn zeta.
  match goal with |- context [ ?c st ] =>
    assert (Hk : keeps c)
  end.
  { destruct g; auto with keeps.
    - apply preserves_bind; [apply keeps_get_detector|]. intros ?.
      apply preserves_bind; [apply keeps_get_camera|]. intros ?.
      apply keeps_loop_body.
    - apply keeps_loop_body. }
  specialize (Hk st H).
  match goal with |- context [ ?c st ] => destruct (c st) as [[[part g']|e] st'] end;
    exact Hk.
Qed.

Lemma keeps_start_detection env : keeps (start_detection env).
Proof.
  intros st H. destruct (start_detection_post env st H) as (resp & st' & -> & Hc & _).
  exact Hc.
Qed.

Lemma keeps_stop_detection : keeps stop_detection.
Proof.
  intros st H. rewrite (stop_detection_stopped st H). apply consistent_stopped, H.
Qed.

Lemma keeps_recalibrate env : keeps (detection.recalibrate env).
Proof.
  unfold detection.recalibrate, main.recalibrate, on_exception.
  apply preserves_try_except; [|intros ?; auto with keeps].
  apply preserves_bind; [apply keeps_get_detector|]. intros ?. repeat keeps_step.
Qed.

Lemma keeps_detection_status : keeps detection_status.
Proof. unfold detection_status. repeat keeps_step. Qed.

Section ReachableFacts.

Variable multi_face_landmarks : Frame -> option (list FaceLandmarks).
Variable imencode_jpg : Frame -> string.

Lemma reachable_consistent st :
  reachable multi_face_landmarks imencode_jpg st -> consistent st.
Proof.
  induction 1.
  - apply consistent_initial.
  - apply keeps_start_detection; assumption.
  - apply keeps_stop_detection; assumption.
  - apply keeps_recalibrate; assumption.
  - apply keeps_detection_status; assumption.
  - apply next_consistent; assumption.
Qed.

End ReachableFacts.

(** ** The movement table *)

Lemma movement_exact w h reference nose direction :
  0 <= w < 2 ^ 31 -> 0 <= h < 2 ^ 31 ->
  main.movement w h reference nose direction
  = Ok (let dx := fst nose - fst reference in
        let dy := snd nose - snd reference in
        if (w <? 20 * Z.abs dx) || (h <? 20 * Z.abs dy) then
          if Z.abs dx >? Z.abs dy then
            if w <? 20 * dx then main.RIGHT
            else if 20 * dx <? - w then main.LEFT
            else direction
          else
            if h <? 20 * dy then main.DOWN
            else if 20 * dy <? - h then main.UP
            else direction
        else main.CENTER).
Proof.
  intros Hw Hh. unfold main.movement.
  destruct (threshold_compare w Hw) as (ht & -> & Hht).
  destruct (threshold_compare h Hh) as (vt & -> & Hvt).
  cbn zeta.
  rewrite (proj1 (Hht (Z.abs (fst nose - fst reference)))).
  rewrite (proj1 (Hvt (Z.abs (snd nose - snd reference)))).
  rewrite (proj1 (Hht (fst nose - fst reference))), (proj2 (Hht (fst nose - fst reference))).
  rewrite (proj1 (Hvt (snd nose - snd reference))), (proj2 (Hvt (snd nose - snd reference))).
  reflexivity.
Qed.

(** The three scenarios of the specification, on [movement] itself. *)
Example scenario_right :
  main.movement 640 480 (320, 240) (390, 245) main.NO_FACE = Ok main.RIGHT.
Proof. reflexivity. Qed.

Example scenario_down :
  main.movement 640 480 (320, 240) (322, 300) main.NO_FACE = Ok main.DOWN.
Proof. reflexivity. Qed.

Example scenario_center :
  main.movement 640 480 (320, 240) (325, 242) main.NO_FACE = Ok main.CENTER.
Proof. reflexivity. Qed.

Ltac decide_comparisons :=
  repeat match goal with
         | |- context [ ?a <? ?b ] => destruct (Z.ltb_spec a b)
         | |- context [ ?a >? ?b ] => rewrite (Z.gtb_ltb a b)
         end;
  cbn [orb]; try reflexivity; try lia.

Section Claims.

Variable multi_face_landmarks : Frame -> option (list FaceLandmarks).

Abbreviation first_face' := (first_face multi_face_landmarks).
Abbreviation returns' := (returns multi_face_landmarks).

(** A calibrated classifier that sees a face returns what [movement]
    computes. *)
Lemma calibrated_returns st self frame d img face nose reference :
  call st self frame d img -> cv_size img ->
  calibrated d = true -> reference_nose_tip d = Some reference ->
  first_face' img = Some face -> nose_pixel img face = Ok nose ->
  exists direction,
    main.movement (width img) (height img) reference nose main.NO_FACE = Ok direction
    /\ returns' self frame st direction frame.
Proof.
  intros (Hd & Hc & Hf) [Hw Hh] Hcal Href Hface Hnose.
  eexists. split; [apply movement_exact; assumption|].
  eexists. eapply detect_movement_classifies; eauto.
  apply movement_exact; assumption.
Qed.



Lemma movement_total cx cy w h px py reference nose direction :
  main.to_pixel cx w = Ok px -> main.to_pixel cy h = Ok py ->
  exists d, main.movement w h reference nose direction = Ok d.
Proof.
  unfold main.to_pixel, float_mul_int, main.movement, int_mul_float.
  destruct (float_of_int w); [|discriminate].
  destruct (float_of_int h); [|discriminate]. eauto.
Qed.

Lemma after_call_self st self frame img ops d d' :
  detectors st !! self = Some d ->
  detectors (after_call st self frame img ops d') !! self = Some d'.
Proof.
  intros Hd. cbn. apply list_lookup_insert_eq. eapply lookup_lt_Some; eauto.
Qed.


(** C5. For a frame in which no face is detected, [detect_movement]
    returns NO FACE and leaves the calibration state, reference and
    flag, as it was, whatever it was. *)
Theorem no_face_keeps_calibration st self frame d img :
  call st self frame d img ->
  first_face' img = None ->
  exists st',
    main.detect_movement multi_face_landmarks self frame st
    = (Ok (main.NO_FACE, frame), st')
    /\ detectors st' = detectors st
    /\ detectors st' !! self = Some d.
Proof.
  intros (Hd & Hc & Hf) Hface. eexists. split.
  - eapply detect_movement_no_face; eauto.
  - cbn. rewrite list_insert_id by exact Hd. auto.
Qed.

Lemma painted_nil img : painted [] img = img.
Proof. destruct img. unfold painted. cbn. rewrite app_nil_r. reflexivity. Qed.

Lemma drawn_on_draw fs frame img rgb op :
  fs !! frame = Some img ->
  preserves (drawn_on fs frame img rgb) (draw frame op).
Proof.
  intros Hf st [ops Hfs].
  assert (Hlt : (frame < length fs)%nat) by (eapply lookup_lt_Some; eauto).
  assert (Hl : frames st !! frame = Some (painted ops img)).
  { rewrite Hfs. apply lookup_app_l_Some. apply list_lookup_insert_eq. exact Hlt. }
  rewrite (draw_Some _ _ _ _ Hl). cbn. exists (ops ++ [op]).
  rewrite Hfs, insert_app_l by (rewrite length_insert; exact Hlt).
  rewrite list_insert_insert_eq. unfold paint, painted. cbn.
  rewrite app_assoc. reflexivity.
Qed.

Lemma drawn_on_update_detector fs frame img rgb r f :
  preserves (drawn_on fs frame img rgb) (update_detector r f).
Proof.
  intros st H. unfold update_detector, bind, deref.
  destruct (detectors st !! r); exact H.
Qed.

Ltac drawn_on_step :=
  first [ apply drawn_on_update_detector
        | apply drawn_on_draw; assumption
        | solve [auto with keeps]
        | apply preserves_bind; [|intros ?]
        | match goal with |- preserves _ (match ?x with _ => _ end) => destruct x end
        | match goal with |- preserves _ (if ?x then _ else _) => destruct x end ].


End Claims.

(** ** The session *)

(** C3, as the code has it.  [recalibrate] on a session that has not been
    started does not fail: [get_detector] creates the classifier, its
    calibration is cleared, and the endpoint answers 200 with status
    success.  The error body appears only when the creation of the
    classifier raises, and carries the message of that exception. *)
Theorem recalibrate_before_start env st :
  detector st = None ->
  detection.recalibrate env st
  = match mesh env with
    | None => (Ok recalibrated, with_new_detector st)
    | Some e => (Ok (status_message "error" (str e) 500), st)
    end.
Proof. exact (recalibrate_unstarted env st). Qed.

(** C6, as the code has it.  A read that fails while the stream is
    suspended at its [yield] ends the stream by [StopIteration], without
    an exception, and leaves the store as it was: the capture object is
    neither released nor replaced.  A [start_detection] that follows
    while the capture object is still open answers success and keeps
    that object. *)
Theorem read_failure_ends_stream mfl enc env env' grab face_detector cap st c :
  captures st !! cap = Some c ->
  grab = None \/ isOpened c = false ->
  detection.next mfl enc env grab (gen_suspended face_detector cap) st
  = (Ok None, gen_finished, st)
  /\ (active st = true -> forall r, detector st = Some r ->
      start_detection env' st = (Ok started, st)).
Proof.
  intros Hc Hfail. split.
  - exact (next_read_failure mfl enc env grab face_detector cap st c Hc Hfail).
  - intros Ha r Hd. exact (start_detection_active env' st r Ha Hd).
Qed.


(** C8. [stop_detection] is idempotent and safe before any start: from
    any store of the program it answers success and leaves the camera
    and the classifier absent; called again, or called when nothing was
    started, it answers success and changes nothing. *)
Theorem stop_detection_idempotent st :
  consistent st ->
  exists st1,
    stop_detection st = (Ok stopped_ok, st1)
    /\ camera st1 = None /\ detector st1 = None
    /\ open_handles st1 = 0%nat
    /\ stop_detection st1 = (Ok stopped_ok, st1)
    /\ (camera st = None -> detector st = None -> st1 = st).
Proof.
  intros Hc. exists (stopped st).
  split; [exact (stop_detection_stopped st Hc)|].
  split; [reflexivity|]. split; [reflexivity|].
  split; [apply inactive_no_handle; [apply consistent_stopped, Hc | reflexivity]|].
  split; [apply stop_detection_nothing; reflexivity|].
  intros Hcam Hdet. unfold stopped. rewrite Hcam, Hdet.
  destruct st; cbn in *; subst; reflexivity.
Qed.

(** ** The scenarios *)




Lemma no_face_keeps_calibration_witness :
  exists st',
    main.detect_movement sees_nothing 0 0 (bench (blank 480 640) (Some (320, 240)))
    = (Ok (main.NO_FACE, 0%nat), st')
    /\ detectors st' = detectors (bench (blank 480 640) (Some (320, 240)))
    /\ detectors st' !! 0%nat = Some (mkFaceDetector (Some (320, 240)) true false).
Proof.
  refine (no_face_keeps_calibration sees_nothing
            (bench (blank 480 640) (Some (320, 240))) 0 0
            (mkFaceDetector (Some (320, 240)) true false) (blank 480 640) _ _).
  - repeat split; reflexivity.
  - reflexivity.
Defined.


(** C3, counterexample: on the store of a module just imported, with a
    face mesh that can be created, the endpoint answers success. *)
Lemma recalibrate_before_start_succeeds :
  detector initial_store = None
  /\ detection.recalibrate camera_present initial_store
     = (Ok (status_message "success" "Recalibrated successfully" 200),
        mkStore [] [fresh_detector] [] (Some 0%nat) None).
Proof. split; reflexivity. Qed.

Lemma recalibrate_before_start_witness :
  detection.recalibrate camera_present initial_store
  = (Ok recalibrated, with_new_detector initial_store).
Proof. exact (recalibrate_before_start camera_present initial_store eq_refl). Defined.

(** C6, counterexample: in a session in progress, a read that fails ends
    the stream and the device is as open as before; nothing was reset. *)
Lemma read_failure_leaves_device_open :
  detection.next sees_nothing no_jpeg camera_present None (gen_suspended 0 0) live_store
  = (Ok None, gen_finished, live_store)
  /\ active live_store = true
  /\ open_handles live_store = 1%nat.
Proof. repeat split; reflexivity. Qed.

Lemma read_failure_ends_stream_witness :
  detection.next sees_nothing no_jpeg camera_present None (gen_suspended 0 0) live_store
  = (Ok None, gen_finished, live_store)
  /\ (active live_store = true -> forall r, detector live_store = Some r ->
      start_detection camera_present live_store = (Ok started, live_store)).
Proof.
  refine (read_failure_ends_stream sees_nothing no_jpeg camera_present camera_present
            None 0 0 live_store (mkVideoCapture true) _ _).
  - reflexivity.
  - left. reflexivity.
Defined.


Lemma stop_detection_idempotent_witness :
  exists st1,
    stop_detection live_store = (Ok stopped_ok, st1)
    /\ camera st1 = None /\ detector st1 = None
    /\ open_handles st1 = 0%nat
    /\ stop_detection st1 = (Ok stopped_ok, st1)
    /\ (camera live_store = None -> detector live_store = None -> st1 = live_store).
Proof.
  refine (stop_detection_idempotent live_store _).
  split; cbn.
  - intros r [= <-]. exists fresh_detector. split; reflexivity.
  - intros r [= <-]. exists (mkVideoCapture true). reflexivity.
  - intros [|[|i]] c Hi Ho; [reflexivity | discriminate | discriminate].
Defined.

(** * Further properties *)

(** ** The classifier *)

Ltac decide_direction :=
  unfold main.CENTER, main.RIGHT, main.LEFT, main.DOWN, main.UP, main.NO_FACE;
  repeat split; intros; try discriminate; try reflexivity; try lia.

Section ClassifierMore.

Variable multi_face_landmarks : Frame -> option (list FaceLandmarks).


(** X2. The classification has no bias to one side: reflecting the nose
    about the reference from left to right exchanges RIGHT and LEFT and
    changes nothing else, and reflecting it from top to bottom exchanges
    DOWN and UP. *)
Theorem movement_mirror w h rx ry dx dy :
  0 <= w < 2 ^ 31 -> 0 <= h < 2 ^ 31 ->
  main.movement w h (rx, ry) (rx - dx, ry + dy) main.NO_FACE
  = map_result mirror_horizontal
      (main.movement w h (rx, ry) (rx + dx, ry + dy) main.NO_FACE)
  /\ main.movement w h (rx, ry) (rx + dx, ry - dy) main.NO_FACE
     = map_result mirror_vertical
         (main.movement w h (rx, ry) (rx + dx, ry + dy) main.NO_FACE).
Proof.
  intros Hw Hh. rewrite !(movement_exact _ _ _ _ _ Hw Hh). cbn [fst snd map_result].
  replace (rx - dx - rx) with (- dx) by lia.
  replace (rx + dx - rx) with dx by lia.
  replace (ry - dy - ry) with (- dy) by lia.
  replace (ry + dy - ry) with dy by lia.
  rewrite !Z.abs_opp, !(Z.gtb_ltb (Z.abs dx) (Z.abs dy)).
  split; f_equal;
    (destruct ((w <? 20 * Z.abs dx) || (h <? 20 * Z.abs dy)); [|reflexivity]);
    destruct (Z.abs dy <? Z.abs dx).
  - destruct (Z.ltb_spec w (20 * dx)); destruct (Z.ltb_spec (20 * dx) (- w));
      destruct (Z.ltb_spec w (20 * - dx)); destruct (Z.ltb_spec (20 * - dx) (- w));
      try lia; reflexivity.
  - destruct (h <? 20 * dy); [reflexivity|]. destruct (20 * dy <? - h); reflexivity.
  - destruct (w <? 20 * dx); [reflexivity|]. destruct (20 * dx <? - w); reflexivity.
  - destruct (Z.ltb_spec h (20 * dy)); destruct (Z.ltb_spec (20 * dy) (- h));
      destruct (Z.ltb_spec h (20 * - dy)); destruct (Z.ltb_spec (20 * - dy) (- h));
      try lia; reflexivity.
Qed.

Lemma after_call_other st self frame img ops d' f img' :
  frames st !! f = Some img' -> f <> frame ->
  frames (after_call st self frame img ops d') !! f = Some img'.
Proof.
  intros Hf Hne. cbn. apply lookup_app_l_Some.
  rewrite list_lookup_insert_ne by congruence. exact Hf.
Qed.


(** When the nose pixel position cannot be computed, the call raises
    before it has drawn or calibrated anything. *)
Lemma detect_movement_raises st self frame img d face e :
  frames st !! frame = Some img ->
  detectors st !! self = Some d ->
  face_mesh_closed d = false ->
  first_face multi_face_landmarks img = Some face ->
  nose_pixel img face = Raise e ->
  main.detect_movement multi_face_landmarks self frame st
  = (Raise e, set_frames (frames st ++ [main.cvtColor_BGR2RGB img]) st).
Proof.
  intros Hf Hd Hc Hface Hnose.
  destruct (first_face_Some _ _ _ Hface) as [rest Hres].
  unfold nose_pixel in Hnose.
  unfold main.detect_movement, main.face_mesh_process.
  exec. rewrite Hc. exec. rewrite list_lookup_middle by reflexivity.
  rewrite Hres. exec.
  destruct (landmark face !! 1%nat) as [tip|]; exec.
  - destruct (main.to_pixel (x tip) (width img)) as [nx|ex]; exec.
    + destruct (main.to_pixel (y tip) (height img)) as [ny|ey]; exec.
      * discriminate.
      * inversion Hnose; subst. reflexivity.
    + inversion Hnose; subst. reflexivity.
  - inversion Hnose; subst. reflexivity.
Qed.

Lemma int_of_float_exceptions f e :
  int_of_float f = Raise e ->
  exists msg, e = ValueError msg \/ e = OverflowError msg.
Proof.
  destruct f as [s|s| |s m ex]; cbn; intros H; inversion H; subst; eauto.
Qed.

Lemma to_pixel_exceptions c size e :
  main.to_pixel c size = Raise e ->
  exists msg, e = ValueError msg \/ e = OverflowError msg.
Proof.
  unfold main.to_pixel, float_mul_int, float_of_int. intros H.
  destruct (binary_normalize prec emax size 0 false) as [s|s| |s m ex];
    first [ exact (int_of_float_exceptions _ _ H) | inversion H; subst; eauto ].
Qed.

Lemma nose_pixel_exceptions img face e :
  nose_pixel img face = Raise e ->
  exists msg, e = IndexError msg \/ e = ValueError msg \/ e = OverflowError msg.
Proof.
  unfold nose_pixel. intros H.
  destruct (landmark face !! 1%nat) as [tip|]; [|inversion H; subst; eauto].
  destruct (main.to_pixel (x tip) (width img)) as [nx|ex] eqn:Ex.
  - destruct (main.to_pixel (y tip) (height img)) as [ny|ey] eqn:Ey; [discriminate|].
    inversion H; subst. destruct (to_pixel_exceptions _ _ _ Ey) as [msg [?|?]]; eauto.
  - inversion H; subst. destruct (to_pixel_exceptions _ _ _ Ex) as [msg [?|?]]; eauto.
Qed.


(** The frame can be classified: it shows no face, or the nose pixel
    position of the face it shows can be computed. *)
Lemma detect_movement_returns st self frame d img :
  frames st !! frame = Some img ->
  detectors st !! self = Some d ->
  face_mesh_closed d = false ->
  first_face multi_face_landmarks img = None
  \/ (exists face nose, first_face multi_face_landmarks img = Some face
                         /\ nose_pixel img face = Ok nose) ->
  exists direction ops d',
    main.detect_movement multi_face_landmarks self frame st
    = (Ok (direction, frame), after_call st self frame img ops d')
    /\ face_mesh_closed d' = false
    /\ (first_face multi_face_landmarks img = None ->
        ops = [no_face_text] /\ d' = d /\ direction = main.NO_FACE).
Proof.
  intros Hf Hd Hc [Hnone | (face & nose & Hface & Hnose)].
  - exists main.NO_FACE, [no_face_text], d. split.
    + eapply detect_movement_no_face; eauto.
    + auto.
  - destruct (calibrated d) eqn:Hcal;
      [destruct (reference_nose_tip d) as [r|] eqn:Href|].
    + destruct (nose_pixel_Ok _ _ _ Hnose) as (tip & _ & Hx & Hy).
      destruct (movement_total _ _ _ _ _ _ r nose main.NO_FACE Hx Hy) as [dir Hmov].
      exists dir. eexists. exists d. split.
      * eapply detect_movement_classifies; eauto.
      * split; [exact Hc|]. congruence.
    + exists main.CENTER_CALIBRATED. eexists. eexists. split.
      * eapply detect_movement_calibrates; eauto.
      * split; [reflexivity|]. congruence.
    + exists main.CENTER_CALIBRATED. eexists. eexists. split.
      * eapply detect_movement_calibrates; eauto.
      * split; [reflexivity|]. congruence.
Qed.

End ClassifierMore.

(** ** The session *)

Lemma ensure_detector_consistent st :
  consistent st -> consistent (ensure_detector st).
Proof.
  intros H. unfold ensure_detector. destruct (detector st); [exact H|].
  apply consistent_new_detector. exact H.
Qed.

Lemma ensure_detector_active st : active (ensure_detector st) = active st.
Proof. unfold ensure_detector. destruct (detector st); reflexivity. Qed.

Lemma ensure_detector_Some st :
  exists r, detector (ensure_detector st) = Some r.
Proof.
  unfold ensure_detector. destruct (detector st) as [r|] eqn:E; [eauto|].
  cbn. eauto.
Qed.

Lemma get_detector_ensure env st :
  mesh env = None \/ is_Some (detector st) ->
  exists r, get_detector env st = (Ok r, ensure_detector st)
            /\ detector (ensure_detector st) = Some r.
Proof.
  intros H. unfold ensure_detector. destruct (detector st) as [r|] eqn:E.
  - exists r. split; [apply get_detector_Some; exact E | exact E].
  - destruct H as [Hm | [r Hr]]; [|discriminate].
    exists (length (detectors st)). rewrite (get_detector_None env st E), Hm.
    split; reflexivity.
Qed.

(** What [start_detection] does whenever the classifier exists or can be
    created. *)
Lemma start_detection_run env st :
  consistent st ->
  mesh env = None \/ is_Some (detector st) ->
  start_detection env st
  = if active st then (Ok started, ensure_detector st)
    else (Ok (if device env then started else camera_error),
          with_new_capture env (ensure_detector st)).
Proof.
  intros Hc Hm. destruct (get_detector_ensure env st Hm) as (r & Hg & Hr).
  pose proof (ensure_detector_consistent st Hc) as Hc'.
  pose proof (ensure_detector_active st) as Ha.
  unfold start_detection, try_except. rewrite (bind_Ok _ _ _ _ _ Hg).
  destruct (active st) eqn:E.
  - destruct (active_Some _ Ha) as (rc & c & Hcam & Hl & Ho).
    rewrite (bind_Ok _ _ _ _ _ (get_camera_open env _ _ _ Hcam Hl Ho)).
    rewrite (bind_Ok _ _ _ _ _ (deref_Some captures _ _ _ Hl)), Ho. reflexivity.
  - rewrite (bind_Ok _ _ _ _ _
               (get_camera_reopen env _ Ha (camera_allocated _ Hc'))).
    assert (Hl : captures (with_new_capture env (ensure_detector st))
                 !! length (captures (ensure_detector st))
                 = Some (mkVideoCapture (device env)))
      by (apply list_lookup_middle; reflexivity).
    rewrite (bind_Ok _ _ _ _ _ (deref_Some captures _ _ _ Hl)). cbn [isOpened].
    destruct (device env); reflexivity.
Qed.

Lemma active_with_new_capture env st :
  active (with_new_capture env st) = device env.
Proof.
  unfold active. cbn [camera with_new_capture captures].
  rewrite list_lookup_middle by reflexivity. reflexivity.
Qed.

(** X5. A start that cannot open the camera answers 500 with the message
    Could not access camera and leaves the session inactive, with no
    capture object open but with the classifier created; a later start
    that finds the device tries again, answers success, and exactly one
    capture object is open. *)
Theorem start_detection_retries env1 env2 st :
  consistent st -> active st = false ->
  mesh env1 = None \/ is_Some (detector st) ->
  device env1 = false -> device env2 = true ->
  exists st1 st2,
    start_detection env1 st = (Ok camera_error, st1)
    /\ active st1 = false /\ open_handles st1 = 0%nat /\ is_Some (detector st1)
    /\ start_detection env2 st1 = (Ok started, st2)
    /\ active st2 = true /\ open_handles st2 = 1%nat
    /\ detector st2 = detector st1.
Proof.
  intros Hc Ha Hm Hd1 Hd2.
  pose proof (start_detection_run env1 st Hc Hm) as Hrun1. rewrite Ha, Hd1 in Hrun1.
  set (st1 := with_new_capture env1 (ensure_detector st)) in *.
  assert (Hc1 : consistent st1).
  { apply consistent_new_capture; [apply ensure_detector_consistent; exact Hc|].
    rewrite ensure_detector_active. exact Ha. }
  assert (Ha1 : active st1 = false)
    by (unfold st1; rewrite active_with_new_capture; exact Hd1).
  destruct (ensure_detector_Some st) as [r Hr].
  assert (Hdet1 : detector st1 = Some r) by exact Hr.
  assert (Hm1 : mesh env2 = None \/ is_Some (detector st1))
    by (right; rewrite Hdet1; eauto).
  pose proof (start_detection_run env2 st1 Hc1 Hm1) as Hrun2.
  rewrite Ha1, Hd2 in Hrun2.
  assert (He : ensure_detector st1 = st1)
    by (unfold ensure_detector; rewrite Hdet1; reflexivity).
  rewrite He in Hrun2.
  set (st2 := with_new_capture env2 st1) in *.
  assert (Ha2 : active st2 = true)
    by (unfold st2; rewrite active_with_new_capture; exact Hd2).
  exists st1, st2. split; [exact Hrun1|]. split; [exact Ha1|].
  split; [apply inactive_no_handle; assumption|].
  split; [rewrite Hdet1; eauto|]. split; [exact Hrun2|]. split; [exact Ha2|].
  split; [|reflexivity].
  apply active_one_handle; [|exact Ha2].
  apply consistent_new_capture; assumption.
Qed.

(** X6. When no classifier exists and its creation raises, a start
    answers 500 with the message of the exception and changes nothing:
    the camera is not touched. *)
Theorem start_detection_creation_fails env st e :
  detector st = None -> mesh env = Some e ->
  start_detection env st = (Ok (error_answer e), st).
Proof.
  intros Hd Hm. pose proof (get_detector_None env st Hd) as Hg. rewrite Hm in Hg.
  unfold start_detection, try_except. rewrite (bind_Raise _ _ _ _ _ Hg). reflexivity.
Qed.

Lemma detection_status_run st :
  consistent st ->
  detection_status st = (Ok (mkResponse (status_body (active st)) 200), st).
Proof.
  intros Hc. unfold detection_status, active. exec.
  destruct (camera st) as [r|] eqn:E; [|reflexivity].
  destruct (camera_allocated st Hc r E) as [c Hl]. rewrite Hl. exec. reflexivity.
Qed.

(** X7. [detection_status] changes nothing and answers 200 with the field
    active telling whether the capture object behind [camera] is open:
    true after a start that answered success, false after a stop. *)
Theorem detection_status_reports st :
  consistent st ->
  detection_status st = (Ok (mkResponse (status_body (active st)) 200), st)
  /\ (forall env resp st1,
        start_detection env st = (Ok resp, st1) -> status_code resp = 200 ->
        detection_status st1 = (Ok (mkResponse (status_body true) 200), st1))
  /\ (forall resp st1,
        stop_detection st = (resp, st1) ->
        detection_status st1 = (Ok (mkResponse (status_body false) 200), st1)).
Proof.
  intros Hc. split; [apply detection_status_run; exact Hc|]. split.
  - intros env resp st1 Hrun H200.
    destruct (start_detection_post env st Hc) as (resp' & st' & Hrun' & Hc' & Hpost).
    rewrite Hrun in Hrun'. inversion Hrun'; subst resp' st'.
    destruct (Hpost H200) as (_ & Ha & _).
    rewrite (detection_status_run st1 Hc'), Ha. reflexivity.
  - intros resp st1 Hrun. rewrite (stop_detection_stopped st Hc) in Hrun.
    inversion Hrun; subst.
    rewrite (detection_status_run _ (consistent_stopped st Hc)). reflexivity.
Qed.

Lemma stopped_lookup_detector st r d :
  detector st = Some r -> detectors st !! r = Some d ->
  detectors (stopped st) !! r = Some (released d).
Proof.
  intros Hr Hd. unfold stopped. cbn [detectors]. rewrite Hr.
  rewrite list_lookup_alter_eq, Hd. reflexivity.
Qed.

Lemma stopped_lengths st :
  length (detectors (stopped st)) = length (detectors st)
  /\ length (captures (stopped st)) = length (captures st).
Proof.
  unfold stopped. cbn [detectors captures]. split.
  - destruct (detector st); [apply length_alter | reflexivity].
  - destruct (camera st); [apply length_insert | reflexivity].
Qed.

(** X8. Calibration does not survive a restart: after [stop_detection]
    and a [start_detection] that succeeds, the session has a classifier
    and a capture object that did not exist before, the classifier is
    not calibrated, the classifier of the stopped session is released
    with its fields as they were, and one capture object is open. *)
Theorem restart_forgets_calibration env st :
  consistent st -> mesh env = None -> device env = true ->
  exists st1 st2,
    stop_detection st = (Ok stopped_ok, st1)
    /\ start_detection env st1 = (Ok started, st2)
    /\ detector st2 = Some (length (detectors st))
    /\ detectors st2 !! length (detectors st) = Some fresh_detector
    /\ camera st2 = Some (length (captures st))
    /\ captures st2 !! length (captures st) = Some (mkVideoCapture true)
    /\ open_handles st2 = 1%nat
    /\ (forall r d, detector st = Some r -> detectors st !! r = Some d ->
                    detectors st2 !! r = Some (released d)).
Proof.
  intros Hc Hm Hdev.
  pose proof (consistent_stopped st Hc) as Hc1.
  pose proof (start_detection_run env (stopped st) Hc1 (or_introl Hm)) as Hrun.
  change (active (stopped st)) with false in Hrun. cbn match in Hrun.
  rewrite Hdev in Hrun.
  change (ensure_detector (stopped st)) with (with_new_detector (stopped st)) in Hrun.
  destruct (stopped_lengths st) as [Ld Lc].
  set (st2 := with_new_capture env (with_new_detector (stopped st))) in *.
  assert (Hc2 : consistent st2).
  { apply consistent_new_capture; [apply consistent_new_detector; exact Hc1|].
    reflexivity. }
  exists (stopped st), st2.
  split; [apply stop_detection_stopped; exact Hc|]. split; [exact Hrun|].
  assert (Hopen : open_handles st2 = 1%nat).
  { apply active_one_handle; [exact Hc2|].
    unfold st2. rewrite active_with_new_capture. exact Hdev. }
  revert Hopen. generalize (open_handles st2). intros n Hopen.
  unfold st2, with_new_capture, with_new_detector.
  cbn [detector detectors camera captures]. rewrite Hdev.
  split; [rewrite Ld; reflexivity|].
  split; [rewrite <- Ld; apply list_lookup_middle; reflexivity|].
  split; [rewrite Lc; reflexivity|].
  split; [rewrite <- Lc; apply list_lookup_middle; reflexivity|].
  split; [exact Hopen|].
  intros r d Hr Hd.
  apply lookup_app_l_Some. apply stopped_lookup_detector; assumption.
Qed.

(** ** The stream *)

Lemma same_session_refl st : same_session st st.
Proof. repeat split. Qed.

Lemma same_session_new_frame st0 f : preserves (same_session st0) (new_frame f).
Proof. intros st H. exact H. Qed.

Lemma same_session_draw st0 r op : preserves (same_session st0) (draw r op).
Proof.
  intros st H. unfold draw, bind, deref. destruct (frames st !! r); exact H.
Qed.

Lemma same_session_update_detector st0 r f :
  preserves (same_session st0) (update_detector r f).
Proof.
  intros st H. unfold update_detector, bind, deref.
  destruct (detectors st !! r); exact H.
Qed.

Ltac same_session_step :=
  first [ apply same_session_update_detector
        | apply same_session_draw
        | apply same_session_new_frame
        | solve [auto with keeps]
        | apply preserves_bind; [|intros ?]
        | match goal with |- preserves _ (match ?x with _ => _ end) => destruct x end
        | match goal with |- preserves _ (if ?x then _ else _) => destruct x end ].

Lemma same_session_detect_movement st0 mfl self frame :
  preserves (same_session st0) (main.detect_movement mfl self frame).
Proof.
  unfold main.detect_movement, main.face_mesh_process. cbn zeta.
  repeat same_session_step.
Qed.

Lemma same_session_loop_body st0 mfl enc face_detector cap grab :
  preserves (same_session st0) (loop_body mfl enc face_detector cap grab).
Proof.
  unfold loop_body, read. apply preserves_bind.
  - repeat same_session_step.
  - intros [success frame]. cbn [fst snd].
    destruct success; [destruct frame|]; auto with keeps.
    apply preserves_bind; [apply same_session_detect_movement|]. intros ?.
    repeat same_session_step.
Qed.

Lemma same_session_active st0 st : same_session st0 st -> active st = active st0.
Proof. intros (Hc & _ & Hcam). unfold active. rewrite Hc, Hcam. reflexivity. Qed.

Lemma same_session_open_handles st0 st :
  same_session st0 st -> open_handles st = open_handles st0.
Proof. intros (Hc & _ & _). unfold open_handles. rewrite Hc. reflexivity. Qed.

Section StreamMore.

Variable multi_face_landmarks : Frame -> option (list FaceLandmarks).
Variable imencode_jpg : Frame -> string.

Abbreviation next' := (detection.next multi_face_landmarks imencode_jpg).
Abbreviation consume' := (consume multi_face_landmarks imencode_jpg).

(** One pass of the loop on an image that can be classified. *)
Lemma next_step env face_detector cap st d c img :
  detectors st !! face_detector = Some d ->
  face_mesh_closed d = false ->
  captures st !! cap = Some c ->
  isOpened c = true ->
  classifiable multi_face_landmarks img ->
  exists direction ops d',
    next' env (Some img) (gen_suspended face_detector cap) st
    = (Ok (Some (part_of (imencode_jpg (painted ops img)))),
       gen_suspended face_detector cap,
       after_call (set_frames (frames st ++ [img]) st) face_detector
                  (length (frames st)) img ops d')
    /\ main.detect_movement multi_face_landmarks face_detector (length (frames st))
         (set_frames (frames st ++ [img]) st)
       = (Ok (direction, length (frames st)),
          after_call (set_frames (frames st ++ [img]) st) face_detector
                     (length (frames st)) img ops d')
    /\ face_mesh_closed d' = false
    /\ (first_face multi_face_landmarks img = None -> ops = [no_face_text] /\ d' = d).
Proof.
  intros Hd Hc Hcap Ho Hcl.
  set (st_r := set_frames (frames st ++ [img]) st).
  assert (Hf : frames st_r !! length (frames st) = Some img)
    by (apply list_lookup_middle; reflexivity).
  destruct (detect_movement_returns multi_face_landmarks st_r face_detector
              (length (frames st)) d img Hf Hd Hc Hcl)
    as (direction & ops & d' & Hrun & Hc' & Hnone).
  exists direction, ops, d'. split; [|split; [exact Hrun|]].
  - unfold detection.next, loop_body, read. cbn zeta. unfold bind at 1.
    rewrite (bind_Ok _ _ _ _ _ (deref_Some captures _ _ _ Hcap)), Ho.
    unfold bind at 1. unfold new_frame at 1. cbn [ret fst snd].
    fold st_r. rewrite (bind_Ok _ _ _ _ _ Hrun). cbn [snd].
    assert (Hl : frames (after_call st_r face_detector (length (frames st)) img ops d')
                 !! length (frames st) = Some (painted ops img)).
    { cbn. apply lookup_app_l_Some. apply list_lookup_insert_eq.
      rewrite length_app. cbn. lia. }
    rewrite (bind_Ok _ _ _ _ _ (deref_Some frames _ _ _ Hl)). reflexivity.
  - split; [exact Hc'|]. intros Hn. destruct (Hnone Hn) as (? & ? & ?). auto.
Qed.

Lemma after_call_same_session st0 st self frame img ops d' :
  same_session st0 st -> same_session st0 (after_call st self frame img ops d').
Proof. intros H. exact H. Qed.

(** The stream over images that can all be classified, and then over the
    rest of what the device delivers. *)
Lemma consume_images env face_detector cap imgs : forall st d c,
  detectors st !! face_detector = Some d ->
  face_mesh_closed d = false ->
  captures st !! cap = Some c ->
  isOpened c = true ->
  Forall (classifiable multi_face_landmarks) imgs ->
  exists parts st' d',
    (forall rest,
        consume' env (map Some imgs ++ rest) (gen_suspended face_detector cap) st
        = (let '(parts2, r, st2) :=
             consume' env rest (gen_suspended face_detector cap) st' in
           (parts ++ parts2, r, st2)))
    /\ length parts = length imgs
    /\ Forall (fun part => exists frame_bytes, part = part_of frame_bytes) parts
    /\ same_session st st'
    /\ detectors st' !! face_detector = Some d'
    /\ face_mesh_closed d' = false
    /\ length (frames st') = (length (frames st) + 2 * length imgs)%nat.
Proof.
  induction imgs as [|img imgs IH]; intros st d c Hd Hc Hcap Ho Hall.
  - exists [], st, d. split.
    + intros rest. cbn [map app].
      destruct (consume' env rest (gen_suspended face_detector cap) st)
        as [[p r] s2]. reflexivity.
    + split; [reflexivity|]. split; [constructor|].
      split; [apply same_session_refl|]. split; [exact Hd|]. split; [exact Hc|].
      cbn. lia.
  - inversion Hall as [|? ? Hcl Hall']; subst.
    destruct (next_step env face_detector cap st d c img Hd Hc Hcap Ho Hcl)
      as (direction & ops & d1 & Hnext & _ & Hc1 & _).
    set (st1 := after_call (set_frames (frames st ++ [img]) st) face_detector
                           (length (frames st)) img ops d1) in *.
    assert (Hd1 : detectors st1 !! face_detector = Some d1)
      by (eapply after_call_self; exact Hd).
    destruct (IH st1 d1 c Hd1 Hc1 Hcap Ho Hall')
      as (parts & st' & d' & Hrun & Hlen & Hparts & Hsame & Hd' & Hc' & Hfr).
    exists (part_of (imencode_jpg (painted ops img)) :: parts), st', d'.
    split.
    + intros rest. cbn [map app consume]. rewrite Hnext, Hrun.
      destruct (consume' env rest (gen_suspended face_detector cap) st')
        as [[p r] s2]. reflexivity.
    + split; [cbn [length]; rewrite Hlen; reflexivity|].
      split; [constructor; eauto|].
      split; [exact Hsame|]. split; [exact Hd'|]. split; [exact Hc'|].
      rewrite Hfr. unfold st1. cbn [frames after_call set_frames length].
      rewrite !length_app, length_insert, length_app. cbn [length]. lia.
Qed.


(** The stream over images that show no face. *)
Lemma consume_no_face env face_detector cap imgs : forall st d c,
  detectors st !! face_detector = Some d ->
  face_mesh_closed d = false ->
  captures st !! cap = Some c ->
  isOpened c = true ->
  Forall (fun img => first_face multi_face_landmarks img = None) imgs ->
  exists st',
    (forall rest,
        consume' env (map Some imgs ++ rest) (gen_suspended face_detector cap) st
        = (let '(parts2, r, st2) :=
             consume' env rest (gen_suspended face_detector cap) st' in
           (map (fun img => part_of (imencode_jpg (painted [no_face_text] img))) imgs
            ++ parts2, r, st2)))
    /\ same_session st st'
    /\ detectors st' = detectors st.
Proof.
  induction imgs as [|img imgs IH]; intros st d c Hd Hc Hcap Ho Hall.
  - exists st. split.
    + intros rest. cbn [map app].
      destruct (consume' env rest (gen_suspended face_detector cap) st)
        as [[p r] s2]. reflexivity.
    + split; [apply same_session_refl | reflexivity].
  - inversion Hall as [|? ? Hnone Hall']; subst.
    destruct (next_step env face_detector cap st d c img Hd Hc Hcap Ho
                (or_introl Hnone))
      as (direction & ops & d1 & Hnext & _ & Hc1 & Hops).
    destruct (Hops Hnone) as [-> ->].
    set (st1 := after_call (set_frames (frames st ++ [img]) st) face_detector
                           (length (frames st)) img [no_face_text] d) in *.
    assert (Hds : detectors st1 = detectors st)
      by (cbn; apply list_insert_id; exact Hd).
    assert (Hd1 : detectors st1 !! face_detector = Some d)
      by (rewrite Hds; exact Hd).
    destruct (IH st1 d c Hd1 Hc Hcap Ho Hall') as (st' & Hrun & Hsame & Hds').
    exists st'. split.
    + intros rest. cbn [map app consume]. rewrite Hnext, Hrun.
      destruct (consume' env rest (gen_suspended face_detector cap) st')
        as [[p r] s2]. reflexivity.
    + split; [exact Hsame|]. congruence.
Qed.

(** X10. Over any sequence of images in which no face is detected the
    stream yields, for each image, the part of that image with the text
    No face detected drawn on it, and the calibration of every
    classifier is at the end what it was at the start; this whether the
    device then fails, which finishes the generator, or the client goes
    away first, which leaves it suspended. *)
Theorem stream_without_face env face_detector cap st d c imgs :
  detectors st !! face_detector = Some d ->
  face_mesh_closed d = false ->
  captures st !! cap = Some c ->
  isOpened c = true ->
  Forall (fun img => first_face multi_face_landmarks img = None) imgs ->
  let parts :=
    map (fun img => part_of (imencode_jpg (painted [no_face_text] img))) imgs in
  exists st',
    (forall rest,
        consume' env (map Some imgs ++ None :: rest)
                 (gen_suspended face_detector cap) st
        = (parts, Ok gen_finished, st'))
    /\ consume' env (map Some imgs) (gen_suspended face_detector cap) st
       = (parts, Ok (gen_suspended face_detector cap), st')
    /\ detectors st' = detectors st
    /\ same_session st st'.
Proof.
  intros Hd Hc Hcap Ho Hall parts.
  destruct (consume_no_face env face_detector cap imgs st d c Hd Hc Hcap Ho Hall)
    as (st' & Hrun & Hsame & Hds).
  assert (Hcap' : captures st' !! cap = Some c)
    by (destruct Hsame as (-> & _); exact Hcap).
  exists st'. split; [|split; [|auto]].
  - intros rest. rewrite Hrun. cbn [consume].
    rewrite (next_read_failure multi_face_landmarks imencode_jpg env None
               face_detector cap st' c Hcap' (or_introl eq_refl)).
    rewrite app_nil_r. reflexivity.
  - specialize (Hrun []). rewrite app_nil_r in Hrun. rewrite Hrun. cbn [consume].
    rewrite app_nil_r. reflexivity.
Qed.


(** X12. Pulling the stream starts the session by itself: the first
    [next] on a new generator creates the classifier if there is none
    and opens the camera if it is not open, so that, whatever becomes of
    the first frame, the session is active afterwards with exactly one
    capture object open, as after a successful start. *)
Theorem stream_starts_session env grab st r g st' :
  consistent st ->
  mesh env = None \/ is_Some (detector st) ->
  device env = true \/ active st = true ->
  next' env grab generate_frames st = (r, g, st') ->
  active st' = true /\ is_Some (detector st') /\ open_handles st' = 1%nat
  /\ consistent st'.
Proof.
  intros Hc Hm Hdev Hrun.
  assert (Hc' : consistent st').
  { pose proof (next_consistent multi_face_landmarks imencode_jpg env grab
                  generate_frames st Hc) as H. rewrite Hrun in H. exact H. }
  destruct (get_detector_ensure env st Hm) as (fd & Hg & Hfd).
  pose proof (ensure_detector_consistent st Hc) as Hce.
  pose proof (ensure_detector_active st) as Hae.
  assert (Hcam : exists cap st_c,
             get_camera env (ensure_detector st) = (Ok cap, st_c)
             /\ active st_c = true /\ detector st_c = Some fd).
  { destruct (active (ensure_detector st)) eqn:Ea.
    - destruct (active_Some _ Ea) as (rc & c & Hcm & Hl & Ho).
      exists rc, (ensure_detector st).
      split; [exact (get_camera_open env _ _ _ Hcm Hl Ho)|]. auto.
    - exists (length (captures (ensure_detector st))),
             (with_new_capture env (ensure_detector st)).
      split; [exact (get_camera_reopen env _ Ea (camera_allocated _ Hce))|].
      split; [|exact Hfd].
      rewrite active_with_new_capture. destruct Hdev as [? | Ha]; [assumption|].
      congruence. }
  destruct Hcam as (cap & st_c & Hgc & Hac & Hdc).
  unfold detection.next, generate_frames in Hrun. cbn zeta in Hrun.
  rewrite (bind_Ok _ _ _ _ _ Hg), (bind_Ok _ _ _ _ _ Hgc) in Hrun.
  pose proof (same_session_loop_body st_c multi_face_landmarks imencode_jpg
                fd cap grab st_c (same_session_refl st_c)) as Hsame.
  assert (Hs : same_session st_c st').
  { destruct (loop_body multi_face_landmarks imencode_jpg fd cap grab st_c)
      as [[[part g']|e] s]; inversion Hrun; subst; exact Hsame. }
  assert (Ha' : active st' = true)
    by (rewrite (same_session_active _ _ Hs); exact Hac).
  split; [exact Ha'|]. split.
  - destruct Hs as (_ & -> & _). rewrite Hdc. eauto.
  - split; [apply active_one_handle; assumption | exact Hc'].
Qed.

(** X13. A stream does not outlive its session: after [stop_detection],
    and also after the [start_detection] that follows it, a generator
    that was suspended on the capture object of the stopped session ends
    at its next read, without an exception and without touching the
    store, while the new session, when the camera could be opened, stays
    active. *)
Theorem stream_ends_after_restart env env' grab st fd cap :
  consistent st -> camera st = Some cap -> mesh env = None ->
  exists st1 resp st2,
    stop_detection st = (Ok stopped_ok, st1)
    /\ next' env' grab (gen_suspended fd cap) st1 = (Ok None, gen_finished, st1)
    /\ start_detection env st1 = (Ok resp, st2)
    /\ next' env' grab (gen_suspended fd cap) st2 = (Ok None, gen_finished, st2)
    /\ active st2 = device env.
Proof.
  intros Hc Hcam Hm.
  pose proof (consistent_stopped st Hc) as Hc1.
  pose proof (start_detection_run env (stopped st) Hc1 (or_introl Hm)) as Hrun.
  change (active (stopped st)) with false in Hrun. cbn match in Hrun.
  destruct (camera_allocated st Hc cap Hcam) as [c Hl].
  assert (Hl1 : captures (stopped st) !! cap = Some (mkVideoCapture false)).
  { unfold stopped. cbn [captures]. rewrite Hcam.
    apply list_lookup_insert_eq. eapply lookup_lt_Some; eauto. }
  eexists (stopped st), _, _.
  split; [apply stop_detection_stopped; exact Hc|].
  split; [apply (next_read_failure _ _ _ _ _ _ _ _ Hl1); right; reflexivity|].
  split; [exact Hrun|]. split.
  - apply (next_read_failure _ _ _ _ _ _ _ (mkVideoCapture false)).
    + cbn [captures with_new_capture]. apply lookup_app_l_Some.
      rewrite <- Hl1. unfold ensure_detector. cbn. reflexivity.
    + right. reflexivity.
  - apply active_with_new_capture.
Qed.

(** X14. In every store the program can reach (any sequence of calls of
    the four endpoints and of steps of any generators) at most one
    capture object is open, it is the one behind [camera], and the
    classifier behind [detector] has not been released. *)
Theorem reachable_invariants st :
  reachable multi_face_landmarks imencode_jpg st ->
  (open_handles st <= 1)%nat
  /\ (forall i c, captures st !! i = Some c -> isOpened c = true ->
                  camera st = Some i)
  /\ (forall r, detector st = Some r ->
                exists d, detectors st !! r = Some d /\ face_mesh_closed d = false).
Proof.
  intros Hr.
  pose proof (reachable_consistent multi_face_landmarks imencode_jpg st Hr) as Hc.
  split; [apply at_most_one_handle; exact Hc|].
  split; [apply (open_is_camera st Hc) | apply (detector_live st Hc)].
Qed.

End StreamMore.

(** ** The standalone loop *)

Section TestCameraFacts.

Variable multi_face_landmarks : Frame -> option (list FaceLandmarks).

Abbreviation camera_loop' := (camera_loop multi_face_landmarks).
Abbreviation test_camera' := (test_camera multi_face_landmarks).
Abbreviation classifiable' := (classifiable multi_face_landmarks).

(** A call on an open classifier either returns, and then the image
    could be classified, or raises, and then it could not. *)
Lemma detect_movement_cases st self frame d img :
  frames st !! frame = Some img ->
  detectors st !! self = Some d ->
  face_mesh_closed d = false ->
  (exists direction ops d',
      main.detect_movement multi_face_landmarks self frame st
      = (Ok (direction, frame), after_call st self frame img ops d')
      /\ face_mesh_closed d' = false /\ classifiable' img)
  \/ (exists e,
        main.detect_movement multi_face_landmarks self frame st
        = (Raise e, set_frames (frames st ++ [main.cvtColor_BGR2RGB img]) st)
        /\ ~ classifiable' img).
Proof.
  intros Hf Hd Hc.
  assert (Hcases : classifiable' img
                   \/ exists face e, first_face multi_face_landmarks img = Some face
                                      /\ nose_pixel img face = Raise e).
  { unfold classifiable.
    destruct (first_face multi_face_landmarks img) as [face|] eqn:Ef; [|auto].
    destruct (nose_pixel img face) as [nose|e] eqn:En; [left|]; eauto. }
  destruct Hcases as [Hcl | (face & e & Ef & En)].
  - left.
    destruct (detect_movement_returns multi_face_landmarks st self frame d img
                Hf Hd Hc Hcl) as (direction & ops & d' & Hrun & Hc' & _).
    eauto 8.
  - right. exists e. split.
    + eapply detect_movement_raises; eauto.
    + intros [Hn | (face' & nose & Ef' & En')]; congruence.
Qed.

(** The loop, from a store where its classifier is open and its capture
    object exists: it touches no object of the session, changes no
    classifier but its own, which stays open, and shows and prints only
    its own events.  An exception comes from a frame that cannot be
    classified; the script runs out only when every read succeeded and
    no key was q. *)
Lemma camera_loop_inv det cap script : forall ui st d c,
  detectors st !! det = Some d ->
  face_mesh_closed d = false ->
  captures st !! cap = Some c ->
  exists r events st' d',
    camera_loop' det cap script ui st = (r, ui ++ events, st')
    /\ Forall loop_event events
    /\ same_session st st'
    /\ detectors st' = <[det := d']> (detectors st)
    /\ face_mesh_closed d' = false
    /\ (forall e, r = Raise e ->
          isOpened c = true
          /\ Exists (fun pass => exists img, fst pass = Some img /\ ~ classifiable' img)
                    script)
    /\ (r = Ok still_running ->
        isOpened c = true
        /\ Forall (fun pass => fst pass <> None /\ ~ key_is "q" pass) script).
Proof.
  induction script as [|[grab code] script IH]; intros ui st d c Hd Hcl Hc;
    cbn [camera_loop]; rewrite (deref_Some captures _ _ _ Hc).
  - exists (if isOpened c then Ok still_running else Ok returned), [], st, d.
    rewrite app_nil_r, list_insert_id by exact Hd.
    destruct (isOpened c); cbn [negb];
      (split; [reflexivity|]); (split; [constructor|]);
      (split; [apply same_session_refl|]); (split; [reflexivity|]);
      (split; [exact Hcl|]); split; intros; try discriminate; auto.
  - destruct (isOpened c) eqn:Ho; cbn [negb].
    2:{ exists (Ok returned), [], st, d.
        rewrite app_nil_r, list_insert_id by exact Hd.
        repeat split; auto using same_session_refl; discriminate. }
    unfold read. rewrite (bind_Ok _ _ _ _ _ (deref_Some captures _ _ _ Hc)), Ho.
    destruct grab as [img|].
    2:{ exists (Ok returned), [], st, d.
        rewrite app_nil_r, list_insert_id by exact Hd.
        cbn. repeat split; auto using same_session_refl; discriminate. }
    cbn [bind new_frame ret].
    set (st2 := set_frames (frames st ++ [img]) st).
    assert (Hf : frames st2 !! length (frames st) = Some img)
      by (apply list_lookup_middle; reflexivity).
    destruct (detect_movement_cases st2 det (length (frames st)) d img Hf Hd Hcl)
      as [(direction & ops & d' & -> & Hcl' & Hclass) | (e & -> & Hno)].
    2:{ exists (Raise e), [], (set_frames (frames st2 ++ [main.cvtColor_BGR2RGB img]) st2), d.
        rewrite app_nil_r, list_insert_id by exact Hd.
        split; [reflexivity|]. split; [constructor|].
        split; [repeat split|]. split; [reflexivity|]. split; [exact Hcl|].
        split; [|discriminate].
        intros e' _. split; [reflexivity|]. left. exists img. auto. }
    set (st3 := after_call st2 det (length (frames st)) img ops d').
    assert (Hd3 : detectors st3 !! det = Some d').
    { apply list_lookup_insert_eq. eapply lookup_lt_Some; exact Hd. }
    destruct (Z.land code 255 =? ord "q"%char) eqn:Eq.
    { exists (Ok returned), [ImShow "Facial Movement Detection" (length (frames st))],
             st3, d'.
      repeat split; auto; try discriminate. repeat constructor. }
    apply Z.eqb_neq in Eq.
    destruct (Z.land code 255 =? ord "c"%char) eqn:Ec.
    + unfold main.recalibrate. rewrite (update_detector_Some _ _ _ _ Hd3).
      set (st4 := set_detectors _ st3).
      assert (Hd4 : detectors st4 !! det = Some (mkFaceDetector None false false)).
      { unfold st4. cbn [detectors set_detectors]. rewrite Hcl'.
        apply list_lookup_insert_eq. eapply lookup_lt_Some; exact Hd3. }
      destruct (IH ((ui ++ [ImShow "Facial Movement Detection" (length (frames st))])
                      ++ [Print "Recalibrated!"]) st4 _ c Hd4 eq_refl Hc)
        as (r & events & st' & d'' & Hrun & Hev & Hs & Hdet & Hcl'' & Hr & Hsr).
      exists r, (ImShow "Facial Movement Detection" (length (frames st))
                 :: Print "Recalibrated!" :: events), st', d''.
      split; [rewrite Hrun; repeat rewrite <- app_assoc; reflexivity|].
      split; [repeat constructor; exact Hev|].
      split; [exact Hs|].
      split; [rewrite Hdet; unfold st4, st3; cbn [detectors set_detectors after_call];
              now rewrite !list_insert_insert_eq|].
      split; [exact Hcl''|].
      split.
      * intros e He. destruct (Hr e He). split; [auto|]. right. assumption.
      * intros He. destruct (Hsr He). split; [auto|].
        constructor; [split; [discriminate | exact Eq] | assumption].
    + destruct (IH (ui ++ [ImShow "Facial Movement Detection" (length (frames st))])
                   st3 _ c Hd3 Hcl' Hc)
        as (r & events & st' & d'' & Hrun & Hev & Hs & Hdet & Hcl'' & Hr & Hsr).
      exists r, (ImShow "Facial Movement Detection" (length (frames st)) :: events),
             st', d''.
      split; [rewrite Hrun; repeat rewrite <- app_assoc; reflexivity|].
      split; [repeat constructor; exact Hev|].
      split; [exact Hs|].
      split; [rewrite Hdet; unfold st3; cbn [detectors after_call];
              now rewrite !list_insert_insert_eq|].
      split; [exact Hcl''|].
      split.
      * intros e He. destruct (Hr e He). split; [auto|]. right. assumption.
      * intros He. destruct (Hsr He). split; [auto|].
        constructor; [split; [discriminate | exact Eq] | assumption].
Qed.

(** [test_camera] when its classifier can be created: the outcome of
    the loop decides whether the three releasing calls are made. *)
Lemma test_camera_run env script st :
  mesh env = None ->
  exists r events frames' d,
    Forall loop_event events
    /\ face_mesh_closed d = false
    /\ (forall e, r = Raise e ->
          device env = true
          /\ Exists (fun pass => exists img, fst pass = Some img /\ ~ classifiable' img)
                    script)
    /\ (r = Ok still_running ->
        device env = true
        /\ Forall (fun pass => fst pass <> None /\ ~ key_is "q" pass) script)
    /\ camera_loop' (length (detectors st)) (length (captures st)) script banner
         (mkStore (frames st) (detectors st ++ [fresh_detector])
                  (captures st ++ [mkVideoCapture (device env)])
                  (detector st) (camera st))
       = (r, banner ++ events,
          mkStore frames' (detectors st ++ [d])
                  (captures st ++ [mkVideoCapture (device env)])
                  (detector st) (camera st))
    /\ test_camera' env script st
       = match r with
         | Ok returned =>
             (Ok returned, banner ++ events ++ [DestroyAllWindows],
              mkStore frames' (detectors st ++ [released d])
                      (captures st ++ [mkVideoCapture false])
                      (detector st) (camera st))
         | _ =>
             (r, banner ++ events,
              mkStore frames' (detectors st ++ [d])
                      (captures st ++ [mkVideoCapture (device env)])
                      (detector st) (camera st))
         end.
Proof.
  intros Hm.
  set (st1 := mkStore (frames st) (detectors st ++ [fresh_detector])
                      (captures st ++ [mkVideoCapture (device env)])
                      (detector st) (camera st)).
  assert (Hd : detectors st1 !! length (detectors st) = Some fresh_detector)
    by (apply list_lookup_middle; reflexivity).
  assert (Hc : captures st1 !! length (captures st)
               = Some (mkVideoCapture (device env)))
    by (apply list_lookup_middle; reflexivity).
  destruct (camera_loop_inv (length (detectors st)) (length (captures st)) script
              banner st1 _ _ Hd eq_refl Hc)
    as (r & events & st2 & d & Hrun & Hev & (Hcap & Hdet & Hcam) & Hds & Hcl & Hr & Hsr).
  assert (Hds' : detectors st2 = detectors st ++ [d]).
  { rewrite Hds. cbn [st1 detectors].
    rewrite (insert_app_r_alt _ _ (length (detectors st))) by lia.
    now rewrite Nat.sub_diag. }
  assert (Est2 : st2 = mkStore (frames st2) (detectors st ++ [d])
                               (captures st ++ [mkVideoCapture (device env)])
                               (detector st) (camera st)).
  { destruct st2. cbn in *. congruence. }
  exists r, events, (frames st2), d.
  split; [exact Hev|]. split; [exact Hcl|]. split; [exact Hr|]. split; [exact Hsr|].
  split; [rewrite Hrun, <- Est2; reflexivity|].
  unfold test_camera. rewrite Hm.
  change ((detector <- main.FaceDetector_init None ;;
           cap <- new_capture (mkVideoCapture (device env)) ;;
           ret (detector, cap)) st)
    with (Ok (length (detectors st), length (captures st)), st1).
  cbn iota. fold banner. rewrite Hrun.
  destruct r as [[|]|e]; [|rewrite <- Est2; reflexivity..].
  assert (Hc2 : captures st2 !! length (captures st)
                = Some (mkVideoCapture (device env))) by (rewrite Hcap; exact Hc).
  unfold VideoCapture_release. rewrite (update_capture_Some _ _ _ _ Hc2).
  unfold main.release.
  assert (Hd2 : detectors st2 !! length (detectors st) = Some d)
    by (rewrite Hds'; apply list_lookup_middle; reflexivity).
  erewrite bind_Ok by (apply deref_Some; exact Hd2). rewrite Hcl.
  erewrite update_detector_Some by exact Hd2.
  rewrite Est2 at 1 2 3 4. cbn [set_detectors set_captures frames detectors captures detector camera].
  rewrite <- app_assoc.
  rewrite (insert_app_r_alt _ _ (length (detectors st))) by lia.
  rewrite (insert_app_r_alt _ _ (length (captures st))) by lia.
  rewrite !Nat.sub_diag. reflexivity.
Qed.



(** The passes that come after a pass with the key q are never run. *)
Lemma camera_loop_quit det cap script grab code rest : forall ui st,
  key_is "q" (grab, code) ->
  camera_loop' det cap (script ++ (grab, code) :: rest) ui st
  = camera_loop' det cap (script ++ [(grab, code)]) ui st.
Proof.
  unfold key_is. cbn [snd]. intros ui st Hq. revert ui st.
  induction script as [|[grab0 code0] script IH]; intros ui st;
    cbn [app camera_loop];
    destruct (deref captures cap st) as [[c|e] st1]; try reflexivity;
    destruct (negb (isOpened c)); try reflexivity.
  - destruct (read cap grab st1) as [[[[|] [frame|]]|e] st2]; try reflexivity.
    destruct (main.detect_movement multi_face_landmarks det frame st2)
      as [[[direction annotated_frame]|e] st3]; [|reflexivity].
    cbn zeta. rewrite Hq, Z.eqb_refl. reflexivity.
  - destruct (read cap grab0 st1) as [[[[|] [frame|]]|e] st2]; try reflexivity.
    destruct (main.detect_movement multi_face_landmarks det frame st2)
      as [[[direction annotated_frame]|e] st3]; [|reflexivity].
    cbn zeta.
    destruct (Z.land code0 255 =? ord "q"%char); [reflexivity|].
    destruct (Z.land code0 255 =? ord "c"%char); [|apply IH].
    destruct (main.recalibrate det st3) as [[[]|e] st4]; [apply IH | reflexivity].
Qed.

(** X17. The key q ends [test_camera] whatever the bits of the key code
    above the low eight: the pass in which [cv2.waitKey] returns a code
    equal to 113 modulo 256 is the last one, what the device and the
    keyboard would deliver afterwards has no effect on the outcome, and
    the function has left its loop. *)
Theorem test_camera_quits_on_q env script grab code rest st :
  key_is "q" (grab, code) ->
  test_camera' env (script ++ (grab, code) :: rest) st
  = test_camera' env (script ++ [(grab, code)]) st
  /\ fst (fst (test_camera' env (script ++ [(grab, code)]) st)) <> Ok still_running.
Proof.
  intros Hq. split.
  - unfold test_camera.
    destruct ((detector <- main.FaceDetector_init (mesh env) ;;
               cap <- new_capture (mkVideoCapture (device env)) ;;
               ret (detector, cap)) st) as [[[det cap]|e] st1]; [|reflexivity].
    rewrite (camera_loop_quit det cap script grab code rest _ _ Hq). reflexivity.
  - destruct (mesh env) as [e|] eqn:Hm.
    + unfold test_camera. rewrite Hm. discriminate.
    + destruct (test_camera_run env (script ++ [(grab, code)]) st Hm)
        as (r & events & frames' & d & _ & _ & _ & Hsr & _ & Hrun).
      rewrite Hrun. destruct r as [[|]|e]; cbn [fst]; try discriminate.
      exfalso. destruct (Hsr eq_refl) as [_ Hgo].
      apply Forall_app in Hgo. destruct Hgo as [_ Hlast].
      inversion Hlast as [|? ? [_ Hk] _]. exact (Hk Hq).
Qed.

(** A loop that has used up its script goes on with what comes next. *)
Lemma camera_loop_app det cap script more : forall ui st ui' st',
  camera_loop' det cap script ui st = (Ok still_running, ui', st') ->
  camera_loop' det cap (script ++ more) ui st = camera_loop' det cap more ui' st'.
Proof.
  induction script as [|[grab code] script IH]; intros ui st ui' st';
    cbn [app camera_loop].
  - unfold deref. destruct (captures st !! cap) as [c|] eqn:Ec; [|discriminate].
    destruct (negb (isOpened c)); [discriminate|].
    intros H. inversion H; subst. reflexivity.
  - destruct (deref captures cap st) as [[c|e] st1]; [|discriminate].
    destruct (negb (isOpened c)); [discriminate|].
    destruct (read cap grab st1) as [[[[|] [frame|]]|e] st2]; try discriminate.
    destruct (main.detect_movement multi_face_landmarks det frame st2)
      as [[[direction annotated_frame]|e] st3]; [|discriminate].
    cbn zeta.
    destruct (Z.land code 255 =? ord "q"%char); [discriminate|].
    destruct (Z.land code 255 =? ord "c"%char); [|apply IH].
    destruct (main.recalibrate det st3) as [[[]|e] st4]; [apply IH | discriminate].
Qed.


End TestCameraFacts.

(** ** Instances

    Each property above that has hypotheses, at a scenario. *)

Ltac consistent_live :=
  split; cbn;
  [ intros r [= <-]; eexists; split; reflexivity
  | intros r [= <-]; eexists; reflexivity
  | intros [|[|i]] c Hi Ho; [reflexivity | discriminate | discriminate] ].


Lemma movement_mirror_witness :
  main.movement 640 480 (320, 240) (320 - 70, 240 + 5) main.NO_FACE
  = map_result mirror_horizontal
      (main.movement 640 480 (320, 240) (320 + 70, 240 + 5) main.NO_FACE)
  /\ main.movement 640 480 (320, 240) (320 + 70, 240 - 5) main.NO_FACE
     = map_result mirror_vertical
         (main.movement 640 480 (320, 240) (320 + 70, 240 + 5) main.NO_FACE).
Proof. apply (movement_mirror 640 480 320 240 70 5); lia. Defined.



Lemma start_detection_retries_witness :
  exists st1 st2,
    start_detection camera_absent initial_store = (Ok camera_error, st1)
    /\ active st1 = false /\ open_handles st1 = 0%nat /\ is_Some (detector st1)
    /\ start_detection camera_present st1 = (Ok started, st2)
    /\ active st2 = true /\ open_handles st2 = 1%nat
    /\ detector st2 = detector st1.
Proof.
  refine (start_detection_retries camera_absent camera_present initial_store
            _ _ _ _ _).
  - split; cbn; intros; discriminate.
  - reflexivity.
  - left. reflexivity.
  - reflexivity.
  - reflexivity.
Defined.

Lemma start_detection_creation_fails_witness :
  start_detection mesh_unavailable initial_store
  = (Ok (error_answer (RuntimeError "face mesh unavailable")), initial_store).
Proof.
  exact (start_detection_creation_fails mesh_unavailable initial_store
           (RuntimeError "face mesh unavailable") eq_refl eq_refl).
Defined.

Lemma detection_status_reports_witness :
  detection_status live_store
  = (Ok (mkResponse (status_body (active live_store)) 200), live_store)
  /\ (forall env resp st1,
        start_detection env live_store = (Ok resp, st1) -> status_code resp = 200 ->
        detection_status st1 = (Ok (mkResponse (status_body true) 200), st1))
  /\ (forall resp st1,
        stop_detection live_store = (resp, st1) ->
        detection_status st1 = (Ok (mkResponse (status_body false) 200), st1)).
Proof.
  refine (detection_status_reports live_store _). consistent_live.
Defined.

Lemma restart_forgets_calibration_witness :
  exists st1 st2,
    stop_detection live_calibrated = (Ok stopped_ok, st1)
    /\ start_detection camera_present st1 = (Ok started, st2)
    /\ detector st2 = Some (length (detectors live_calibrated))
    /\ detectors st2 !! length (detectors live_calibrated) = Some fresh_detector
    /\ camera st2 = Some (length (captures live_calibrated))
    /\ captures st2 !! length (captures live_calibrated) = Some (mkVideoCapture true)
    /\ open_handles st2 = 1%nat
    /\ (forall r d, detector live_calibrated = Some r ->
                    detectors live_calibrated !! r = Some d ->
                    detectors st2 !! r = Some (released d)).
Proof.
  refine (restart_forgets_calibration camera_present live_calibrated _ _ _).
  - consistent_live.
  - reflexivity.
  - reflexivity.
Defined.


Lemma stream_without_face_witness :
  let parts :=
    map (fun img => part_of (no_jpeg (painted [no_face_text] img)))
        [blank 480 640; blank 480 640] in
  exists st',
    (forall rest,
        consume sees_nothing no_jpeg camera_present
                (map Some [blank 480 640; blank 480 640] ++ None :: rest)
                (gen_suspended 0 0) live_calibrated
        = (parts, Ok gen_finished, st'))
    /\ consume sees_nothing no_jpeg camera_present
               (map Some [blank 480 640; blank 480 640])
               (gen_suspended 0 0) live_calibrated
       = (parts, Ok (gen_suspended 0 0), st')
    /\ detectors st' = detectors live_calibrated
    /\ same_session live_calibrated st'.
Proof.
  refine (stream_without_face sees_nothing no_jpeg camera_present 0 0 live_calibrated
            (mkFaceDetector (Some (100, 100)) true false) (mkVideoCapture true)
            [blank 480 640; blank 480 640] _ _ _ _ _).
  - reflexivity.
  - reflexivity.
  - reflexivity.
  - reflexivity.
  - repeat constructor.
Defined.


Lemma stream_starts_session_witness :
  let run := detection.next sees_nothing no_jpeg camera_present (Some (blank 480 640))
               generate_frames initial_store in
  active (snd run) = true /\ is_Some (detector (snd run))
  /\ open_handles (snd run) = 1%nat /\ consistent (snd run).
Proof.
  intros run.
  refine (stream_starts_session sees_nothing no_jpeg camera_present
            (Some (blank 480 640)) initial_store (fst (fst run)) (snd (fst run))
            (snd run) _ _ _ _).
  - split; cbn; intros; discriminate.
  - left. reflexivity.
  - left. reflexivity.
  - vm_compute. reflexivity.
Defined.

Lemma stream_ends_after_restart_witness :
  exists st1 resp st2,
    stop_detection live_store = (Ok stopped_ok, st1)
    /\ detection.next sees_nothing no_jpeg camera_present (Some (blank 480 640))
         (gen_suspended 0 0) st1
       = (Ok None, gen_finished, st1)
    /\ start_detection camera_present st1 = (Ok resp, st2)
    /\ detection.next sees_nothing no_jpeg camera_present (Some (blank 480 640))
         (gen_suspended 0 0) st2
       = (Ok None, gen_finished, st2)
    /\ active st2 = device camera_present.
Proof.
  refine (stream_ends_after_restart sees_nothing no_jpeg camera_present camera_present
            (Some (blank 480 640)) live_store 0 0 _ _ _).
  - consistent_live.
  - reflexivity.
  - reflexivity.
Defined.

Lemma reachable_invariants_witness :
  let st := snd (start_detection camera_present initial_store) in
  (open_handles st <= 1)%nat
  /\ (forall i c, captures st !! i = Some c -> isOpened c = true ->
                  camera st = Some i)
  /\ (forall r, detector st = Some r ->
                exists d, detectors st !! r = Some d /\ face_mesh_closed d = false).
Proof.
  refine (reachable_invariants sees_nothing no_jpeg
            (snd (start_detection camera_present initial_store)) _).
  apply reach_start. apply reach_initial.
Defined.

Ltac sees_nose_right :=
  right; exists (face_with nose_right), (390, 245); split;
  [reflexivity | vm_compute; reflexivity].



Lemma test_camera_quits_on_q_witness :
  test_camera (sees nose_right) camera_present
    ([(Some (blank 480 640), 255)] ++ (Some (blank 480 640), 369) :: short_script)
    initial_store
  = test_camera (sees nose_right) camera_present
      ([(Some (blank 480 640), 255)] ++ [(Some (blank 480 640), 369)]) initial_store
  /\ fst (fst (test_camera (sees nose_right) camera_present
                 ([(Some (blank 480 640), 255)] ++ [(Some (blank 480 640), 369)])
                 initial_store))
     <> Ok still_running.
Proof.
  refine (test_camera_quits_on_q (sees nose_right) camera_present
            [(Some (blank 480 640), 255)] (Some (blank 480 640)) 369 short_script
            initial_store _).
  reflexivity.
Defined.

